(** * PISIGHT backend: session state machine, adapters and WAV framing

    A shallow embedding of the Socket.IO server (the server module with
    [getWaveBuffer], [textToAudio] and the five socket handlers) and of
    [controllers/aiAgent.controller.js] ([AiProcessing]).

    Conventions.
    - A JavaScript exception or a rejected promise is a [Throw] carrying
      the [message] of the error; everything else is [Ok].
    - [console.log] / [console.error] calls are not modelled.
    - An [async] handler runs synchronously up to its first [await] on a
      remote call and is then parked; the environment resumes it with the
      outcome of that call.  Parked handlers, the session record and the
      observable actions of a connection make up the state of the
      transition system in [Module Gateway]. *)

From Stdlib Require Import ZArith List String Ascii Lia DecimalString.
From Stdlib.Strings Require Import Byte.
From stdpp Require Import base list strings gmap.
Import ListNotations.

Local Open Scope string_scope.
Local Open Scope Z_scope.

(** ** Exceptions *)

Inductive result (A : Type) : Type :=
| Ok (a : A)
| Throw (message : string).
Arguments Ok {A} a.
Arguments Throw {A} message.

Definition bind {A B : Type} (r : result A) (k : A -> result B) : result B :=
  match r with
  | Ok a => k a
  | Throw m => Throw m
  end.

Notation "'try!' x ':=' r 'in' k" := (bind r (fun x => k))
  (at level 10, x name, r at level 100, k at level 200).

Definition is_Ok {A : Type} (r : result A) : bool :=
  match r with Ok _ => true | Throw _ => false end.

(** ** Bytes, buffers and JavaScript values *)

Definition bytes : Type := list byte.

Definition byte_of_Z (z : Z) : byte :=
  match Byte.of_N (Z.to_N (z mod 256)) with
  | Some b => b
  | None => x00
  end.

Definition Z_of_byte (b : byte) : Z := Z.of_N (Byte.to_N b).

#[global] Instance byte_eq_decision : EqDecision byte := Byte.byte_eq_dec.

(** [Buffer.concat(list)]. *)
Definition Buffer_concat (chunks : list bytes) : bytes := List.concat chunks.

(** [buf.length]. *)
Definition Buffer_length (b : bytes) : Z := Z.of_nat (length b).

(** The values a Socket.IO client can put in an event payload, as far as
    [Buffer.from] tells them apart: binary data ([ArrayBuffer], [Buffer],
    typed array), strings (held as their UTF-8 bytes), arrays of integers,
    and the primitives that are not buffer-like. *)
Inductive jsval : Type :=
| JUndefined
| JNull
| JBoolean (b : bool)
| JNumber (n : Z)
| JString (s : string)
| JArray (xs : list Z)
| JBinary (data : bytes).

(** A number in decimal, as in a template literal or an error message. *)
Definition decimal (z : Z) : string := NilZero.string_of_int (Z.to_int z).

(** The message of Node's [ERR_INVALID_ARG_TYPE] for the first argument
    of [Buffer.from], with its description of the value received. *)
Definition ERR_INVALID_ARG_TYPE (v : jsval) : string :=
  "The first argument must be of type string or an instance of Buffer, ArrayBuffer, or Array or an Array-like Object. Received "
  ++ match v with
     | JUndefined => "undefined"
     | JNull => "null"
     | JBoolean true => "type boolean (true)"
     | JBoolean false => "type boolean (false)"
     | JNumber n => "type number (" ++ decimal n ++ ")"
     | _ => ""
     end.

(** [Buffer.from(value)]: copies binary data, encodes a string, keeps
    the low byte of every element of an array, and throws a [TypeError]
    on [undefined], [null], booleans and numbers. *)
Definition Buffer_from (v : jsval) : result bytes :=
  match v with
  | JBinary data => Ok data
  | JString s => Ok (list_byte_of_string s)
  | JArray xs => Ok (map byte_of_Z xs)
  | _ => Throw (ERR_INVALID_ARG_TYPE v)
  end.

(** ** base64 (Node's [buf.toString("base64")] and [Buffer.from(s, "base64")]) *)

Definition base64_alphabet : list ascii :=
  list_ascii_of_string
    "ABCDEFGHIJKLMNOPQRSTUVWXYZabcdefghijklmnopqrstuvwxyz0123456789+/".

Definition base64_char (sextet : Z) : ascii :=
  nth (Z.to_nat sextet) base64_alphabet "="%char.

Fixpoint base64_encode (b : bytes) : string :=
  match b with
  | [] => ""
  | [x] =>
      let n := Z_of_byte x in
      String (base64_char (n / 4))
        (String (base64_char ((n mod 4) * 16)) "==")
  | [x; y] =>
      let n := Z_of_byte x * 256 + Z_of_byte y in
      String (base64_char (n / 1024))
        (String (base64_char ((n / 16) mod 64))
           (String (base64_char ((n mod 16) * 4)) "="))
  | x :: y :: z :: rest =>
      let n := Z_of_byte x * 65536 + Z_of_byte y * 256 + Z_of_byte z in
      String (base64_char (n / 262144))
        (String (base64_char ((n / 4096) mod 64))
           (String (base64_char ((n / 64) mod 64))
              (String (base64_char (n mod 64)) (base64_encode rest))))
  end.

(** The value of a base64 digit; the URL-safe digits are accepted too. *)
Definition unbase64 (c : ascii) : option Z :=
  let n := Z.of_N (N_of_ascii c) in
  if (65 <=? n) && (n <=? 90) then Some (n - 65)
  else if (97 <=? n) && (n <=? 122) then Some (n - 71)
  else if (48 <=? n) && (n <=? 57) then Some (n + 4)
  else if (n =? 43) || (n =? 45) then Some 62
  else if (n =? 47) || (n =? 95) then Some 63
  else None.

(** Digits of the input up to the first padding character; characters
    outside the alphabet are skipped. *)
Fixpoint base64_sextets (s : string) : list Z :=
  match s with
  | EmptyString => []
  | String c rest =>
      if Ascii.eqb c "="%char then []
      else match unbase64 c with
           | Some v => v :: base64_sextets rest
           | None => base64_sextets rest
           end
  end.

Fixpoint base64_pack (l : list Z) : bytes :=
  match l with
  | a :: b :: c :: d :: rest =>
      let n := ((a * 64 + b) * 64 + c) * 64 + d in
      byte_of_Z (n / 65536) :: byte_of_Z (n / 256) :: byte_of_Z n
        :: base64_pack rest
  | [a; b; c] =>
      let n := (a * 64 + b) * 64 + c in
      [byte_of_Z (n / 1024); byte_of_Z (n / 4)]
  | [a; b] => [byte_of_Z ((a * 64 + b) / 16)]
  | _ => []
  end.

Definition Buffer_from_base64 (s : string) : bytes :=
  base64_pack (base64_sextets s).


(** ** The [wav] package's streaming [Writer]

    The [wav] package is a dependency of the server, not part of the
    repository; this module models its [Writer] (lib/writer.js) as far
    as [getWaveBuffer] uses it.  [new wav.Writer(opts)] is a transform
    stream: its constructor pushes a 44-byte RIFF/WAVE header to the
    readable side ([_writeHeader]) and every chunk written afterwards is
    pushed through unchanged ([_transform]).  The header goes out before
    any sample is seen, so its two length fields are computed from the
    writer's [dataLength] placeholder, [MAX_WAV]; the corrected header is
    only announced by a ["header"] event at the end, which
    [wav.FileWriter] uses to patch the file and [getWaveBuffer] does not
    listen to.  The integer writes are Node's checked [writeUInt16LE] /
    [writeUInt32LE]. *)
Module Wav.

Definition MAX_WAV : Z := 4294967295 - 100.
Definition headerLength : Z := 44.

Record options : Type := {
  channels : Z;
  sampleRate : Z;
  bitDepth : Z
}.

Definition ERR_OUT_OF_RANGE : string :=
  "ERR_OUT_OF_RANGE: the value is out of range.".

Definition writeUInt16LE (v : Z) : result bytes :=
  if (0 <=? v) && (v <=? 65535)
  then Ok [byte_of_Z v; byte_of_Z (v / 256)]
  else Throw ERR_OUT_OF_RANGE.

Definition writeUInt32LE (v : Z) : result bytes :=
  if (0 <=? v) && (v <=? 4294967295)
  then Ok [byte_of_Z v; byte_of_Z (v / 256);
           byte_of_Z (v / 65536); byte_of_Z (v / 16777216)]
  else Throw ERR_OUT_OF_RANGE.

Definition RIFF : bytes := list_byte_of_string "RIFF".
Definition WAVE : bytes := list_byte_of_string "WAVE".
Definition fmt : bytes := list_byte_of_string "fmt ".
Definition data : bytes := list_byte_of_string "data".

(** [Writer.prototype._writeHeader], with [format = 1] (raw PCM),
    little endian, and [dataLength], [byteRate], [blockAlign] unset. *)
Definition _writeHeader (o : options) : result bytes :=
  let dataLength := MAX_WAV in
  let fileSize := dataLength + headerLength in
  try! size := writeUInt32LE (fileSize - 8) in
  try! fmtSize := writeUInt32LE 16 in
  try! format := writeUInt16LE 1 in
  try! nch := writeUInt16LE (channels o) in
  try! rate := writeUInt32LE (sampleRate o) in
  try! byteRate :=
    writeUInt32LE (sampleRate o * channels o * bitDepth o / 8) in
  try! blockAlign := writeUInt16LE (channels o * bitDepth o / 8) in
  try! bits := writeUInt16LE (bitDepth o) in
  try! len := writeUInt32LE dataLength in
  Ok (RIFF ++ size ++ WAVE ++ fmt ++ fmtSize ++ format ++ nch ++ rate
        ++ byteRate ++ blockAlign ++ bits ++ data ++ len)%list.

(** The writer: what it has pushed to its readable side so far, and
    the number of sample bytes it has seen. *)
Record Writer : Type := {
  pushed : list bytes;
  bytesProcessed : Z
}.

Definition new_Writer (o : options) : result Writer :=
  try! header := _writeHeader o in
  Ok {| pushed := [header]; bytesProcessed := 0 |}.

(** [writer.write(chunk)], that is [_transform]. *)
Definition write (w : Writer) (chunk : bytes) : Writer :=
  {| pushed := (pushed w ++ [chunk])%list;
     bytesProcessed := bytesProcessed w + Buffer_length chunk |}.

(** How the stream ends, as seen by the two listeners a caller
    registers: ["finish"] fires, or ["error"] fires with an error. *)
Inductive ending : Type :=
| finish
| error (message : string).

End Wav.

(** ** [BufferWritable] *)

Record BufferWritable : Type := { chunks : list bytes }.

Definition new_BufferWritable : BufferWritable := {| chunks := [] |}.

Definition _write (s : BufferWritable) (chunk : bytes) : BufferWritable :=
  {| chunks := (chunks s ++ [chunk])%list |}.

Definition getBuffer (s : BufferWritable) : bytes := Buffer_concat (chunks s).

(** [writer.pipe(bufferStream)]: every chunk the writer pushes is
    written to the destination, in order. *)
Definition pipe (source : list bytes) (dest : BufferWritable)
  : BufferWritable :=
  fold_left _write source dest.

(** ** [getWaveBuffer]

    The promise resolves with [bufferStream.getBuffer()] when the writer
    emits ["finish"] and rejects when it emits ["error"]; an exception
    thrown by the [wav.Writer] constructor inside the executor rejects
    it as well.  When ["finish"] is handled the pipe has written the
    header and the payload to [bufferStream]. *)
Definition getWaveBuffer (e : Wav.ending) (pcmData : bytes)
    (channels rate sampleWidth : Z) : result bytes :=
  let bufferStream := new_BufferWritable in
  try! writer :=
    Wav.new_Writer {| Wav.channels := channels;
                      Wav.sampleRate := rate;
                      Wav.bitDepth := sampleWidth * 8 |} in
  let writer := Wav.write writer pcmData in
  match e with
  | Wav.finish =>
      Ok (getBuffer (pipe (Wav.pushed writer) bufferStream))
  | Wav.error message => Throw message
  end.

(** ** [saveWaveFile]

    The same writer, as a [wav.FileWriter] on [filename]: what it
    pushes goes to a file stream, and the header in the file is patched
    once the ["header"] event has given the true lengths.  The promise
    resolves when the writer emits ["finish"] and rejects when the
    writer emits ["error"] before that; an error of the file stream is
    not an error of the writer and does not reject the promise.  The
    promise carries no value, and the file left on disk is not part of
    the model: nothing in the server reads it back. *)
Definition saveWaveFile (e : Wav.ending) (filename : string)
    (pcmData : bytes) (channels rate sampleWidth : Z) : result unit :=
  try! writer :=
    Wav.new_Writer {| Wav.channels := channels;
                      Wav.sampleRate := rate;
                      Wav.bitDepth := sampleWidth * 8 |} in
  let writer := Wav.write writer pcmData in
  match e with
  | Wav.finish => Ok tt
  | Wav.error message => Throw message
  end.

(** The default arguments of [getWaveBuffer]: mono, 24000 Hz, two bytes
    per sample. *)
Definition default_channels : Z := 1.
Definition default_rate : Z := 24000.
Definition default_sampleWidth : Z := 2.

(** The stream has drained: the writer has finished, with no error. *)
Definition drained (e : Wav.ending) : Prop :=
  match e with
  | Wav.finish => True
  | Wav.error _ => False
  end.

(** ** Reading a WAV header back (a standard decoder's view) *)

Definition readUInt16LE (b : bytes) (offset : nat) : option Z :=
  match drop offset b with
  | b0 :: b1 :: _ => Some (Z_of_byte b0 + 256 * Z_of_byte b1)
  | _ => None
  end.

Definition readUInt32LE (b : bytes) (offset : nat) : option Z :=
  match drop offset b with
  | b0 :: b1 :: b2 :: b3 :: _ =>
      Some (Z_of_byte b0 + 256 * Z_of_byte b1
            + 65536 * Z_of_byte b2 + 16777216 * Z_of_byte b3)
  | _ => None
  end.

Record wav_header : Type := {
  hdr_riffSize : Z;
  hdr_audioFormat : Z;
  hdr_channels : Z;
  hdr_sampleRate : Z;
  hdr_byteRate : Z;
  hdr_blockAlign : Z;
  hdr_bitsPerSample : Z;
  hdr_dataLength : Z
}.

Definition has_tag (b : bytes) (offset : nat) (tag : bytes) : bool :=
  bool_decide (take 4 (drop offset b) = (tag : list byte)).

Definition parse_header (b : bytes) : option wav_header :=
  if has_tag b 0 Wav.RIFF && has_tag b 8 Wav.WAVE
     && has_tag b 12 Wav.fmt && has_tag b 36 Wav.data
  then
    riff ← readUInt32LE b 4;
    fmtSize ← readUInt32LE b 16;
    format ← readUInt16LE b 20;
    nch ← readUInt16LE b 22;
    rate ← readUInt32LE b 24;
    byteRate ← readUInt32LE b 28;
    align ← readUInt16LE b 32;
    bits ← readUInt16LE b 34;
    len ← readUInt32LE b 40;
    if fmtSize =? 16
    then Some {| hdr_riffSize := riff; hdr_audioFormat := format;
                 hdr_channels := nch; hdr_sampleRate := rate;
                 hdr_byteRate := byteRate; hdr_blockAlign := align;
                 hdr_bitsPerSample := bits; hdr_dataLength := len |}
    else None
  else None.

(** Number of sample frames a header declares. *)
Definition declared_samples (h : wav_header) : Z :=
  hdr_dataLength h / hdr_blockAlign h.

(** Number of sample frames in a headerless payload of the given format. *)
Definition payload_samples (pcm : bytes) (channels sampleWidth : Z) : Z :=
  Buffer_length pcm / (channels * sampleWidth).

Definition strip_header (b : bytes) : bytes := drop 44 b.

(** ** [Array.prototype.join] on arrays of strings *)

Definition newline : string := String (ascii_of_nat 10) "".

Fixpoint join (sep : string) (l : list string) : string :=
  match l with
  | [] => ""
  | [x] => x
  | x :: rest => x ++ sep ++ join sep rest
  end.

(** ** [controllers/aiAgent.controller.js] *)
Module AiAgent.

(** A part of a prompt message. *)
Inductive part : Type :=
| text_part (text : string)      (* { type: "text", text } *)
| image_part (image : string).   (* { type: "image", image } *)

Record chat_message : Type := {
  role : string;
  content : list part
}.

Record request : Type := {
  model : string;
  system : string;
  messages : list chat_message
}.

(** A part of a step of the model's answer: text, or anything else
    (reasoning, tool call, source, file, ...) with its [type]. *)
Inductive output : Type :=
| text_output (text : string)
| other_output (type : string).

Record step : Type := { step_content : list output }.

Record response : Type := { steps : list step }.

Definition instruction : string := "Describe this image in detail".

Definition system_prompt : string :=
  "You are an intelligent assistant. Answer like a human, keep it short, clear, consistent, and do not use markdown formatting.".

Definition data_url (img : bytes) : string :=
  "data:image/png;base64," ++ base64_encode img.

(** The [messages] array: the user's text turn, and a second turn when
    [img] is truthy (any buffer, also an empty one). *)
Definition build_messages (img : option bytes) (message : string)
  : list chat_message :=
  let messages :=
    [ {| role := "user"; content := [text_part message] |} ] in
  match img with
  | Some buf =>
      (messages ++
       [ {| role := "user";
            content := [ text_part instruction;
                         image_part (data_url buf) ] |} ])%list
  | None => messages
  end.

Definition build_request (img : option bytes) (message : string) : request :=
  {| model := "gemini-2.5-flash";
     system := system_prompt;
     messages := build_messages img message |}.

Definition output_text (c : output) : string :=
  match c with
  | text_output text => text
  | other_output _ => ""
  end.

(** [response.steps.map(step => step.content.map(...).join("\n")).join("\n")] *)
Definition resultText (r : response) : string :=
  join newline
    (map (fun st => join newline (map output_text (step_content st)))
         (steps r)).

(** [AiProcessing(img, message)], over the remote [generateText]. *)
Definition AiProcessing (generateText : request -> result response)
    (img : option bytes) (message : string) : result string :=
  try! response := generateText (build_request img message) in
  Ok (resultText response).

End AiAgent.

(** ** [textToAudio] (the server module's own; the controller's export
    of the same name is not imported by the server) *)
Module Tts.

Record inlineData_t : Type := { data : option string }.
Record part : Type := { inlineData : option inlineData_t }.
Record content_t : Type := { parts : option (list part) }.
Record candidate : Type := { content : option content_t }.
Record response : Type := { candidates : option (list candidate) }.

(** [response.candidates?.[0]?.content?.parts?.[0]?.inlineData?.data] *)
Definition audio_data (r : response) : option string :=
  cs ← candidates r;
  c ← head cs;
  ct ← content c;
  ps ← parts ct;
  p ← head ps;
  i ← inlineData p;
  data i.

(** What the world answers to one [textToAudio] call: the outcome of
    [googleAI.models.generateContent], how the stream of [getWaveBuffer]
    ends, the value of [process.env.DEBUG_SAVE_AUDIO], the [Date.now()]
    that names the debug file, and how the stream of [saveWaveFile]
    ends. *)
Record world : Type := {
  generateContent : string -> result response;
  ending : Wav.ending;
  DEBUG_SAVE_AUDIO : option string;
  Date_now : Z;
  save_ending : Wav.ending
}.

(** [process.env.DEBUG_SAVE_AUDIO === "true"] *)
Definition debugging (w : world) : bool :=
  match DEBUG_SAVE_AUDIO w with
  | Some v => (v =? "true")%string
  | None => false
  end.

Definition no_audio : string := "No audio data returned from Gemini API.".

Definition textToAudio (w : world) (text : string) : result bytes :=
  try! response := generateContent w text in
  match audio_data response with
  | None | Some EmptyString => Throw no_audio
  | Some data =>
      let rawPcmBuffer := Buffer_from_base64 data in
      try! waveBuffer :=
        getWaveBuffer (ending w) rawPcmBuffer
          default_channels default_rate default_sampleWidth in
      try! saved :=
        (if debugging w
         then
           let fileName := "tts_output_" ++ decimal (Date_now w) ++ ".wav" in
           saveWaveFile (save_ending w) fileName rawPcmBuffer
             default_channels default_rate default_sampleWidth
         else Ok tt) in
      Ok waveBuffer
  end.

End Tts.

(** ** The Socket.IO connection handler *)
Module Gateway.

(** [sessionData], one per connection. *)
Record sessionData : Type := {
  image : option bytes;
  imageChunks : list bytes;
  isProcessing : bool
}.

Definition new_sessionData : sessionData :=
  {| image := None; imageChunks := []; isProcessing := false |}.

(** The payload of [image_chunk]; [isLast] is its truthiness. *)
Record chunk_data : Type := {
  chunk : jsval;
  isLast : bool
}.

Inductive inbound : Type :=
| audio_full (arrayBuffer : jsval)
| image_chunk (data : chunk_data)
| text_message (message : string)
| clear_image
| disconnect.

Inductive outbound : Type :=
| ai_response (text : string) (audio : string) (timestamp : Z)
| error (type : string) (message : string)
| image_received (size : Z) (timestamp : Z)
| image_cleared.

(** Calls that suspend a handler. *)
Inductive call : Type :=
| files_upload (audioBuffer : bytes)
| transcripts_create (audio_url : string)
| transcripts_get (id : string)
| setTimeout (ms : Z)
| generateText (request : AiAgent.request)
| generateContent (text : string).

Inductive action : Type :=
| Emit (e : outbound)
| Call (c : call).

(** A transcript as returned by [assemblyClient.transcripts.get]. *)
Record transcript : Type := {
  status : string;
  text : option string;
  error_message : option string
}.

(** The two pipeline handlers, named after the error type each emits. *)
Inductive handler : Type :=
| full_audio
| text_processing.

Definition error_type (h : handler) : string :=
  match h with
  | full_audio => "full_audio"
  | text_processing => "text_processing"
  end.

(** A parked handler: the [await] it is suspended on, with the locals
    its continuation still needs. *)
Inductive pending : Type :=
| await_upload
| await_create
| await_get (id : string)
| await_timer (id : string)
| await_AiProcessing (h : handler) (img : option bytes) (message : string)
| await_textToAudio (h : handler) (aiResponseText : string).

(** What the environment resumes a parked handler with; the reply to
    [textToAudio] comes with the [Date.now()] read right after it. *)
Inductive reply : Type :=
| uploaded (uploadResponse : result string)
| created (transcriptResponse_id : result string)
| got (completedTranscript : result transcript)
| timer_fired
| generated (remote : AiAgent.request -> result AiAgent.response)
| synthesized (w : Tts.world) (now : Z).

(** One connection: its session, its parked handlers, and everything it
    has emitted or called so far, oldest first. *)
Record conn : Type := {
  session : sessionData;
  inflight : list pending;
  trace : list action
}.

Definition new_conn : conn :=
  {| session := new_sessionData; inflight := []; trace := [] |}.

Definition with_session (f : sessionData -> sessionData) (c : conn) : conn :=
  {| session := f (session c); inflight := inflight c; trace := trace c |}.

Definition set_image (v : option bytes) (s : sessionData) : sessionData :=
  {| image := v; imageChunks := imageChunks s;
     isProcessing := isProcessing s |}.

Definition set_imageChunks (v : list bytes) (s : sessionData) : sessionData :=
  {| image := image s; imageChunks := v; isProcessing := isProcessing s |}.

Definition set_isProcessing (v : bool) (s : sessionData) : sessionData :=
  {| image := image s; imageChunks := imageChunks s; isProcessing := v |}.

Definition act (a : action) (c : conn) : conn :=
  {| session := session c; inflight := inflight c;
     trace := (trace c ++ [a])%list |}.

Definition emit (e : outbound) : conn -> conn := act (Emit e).
Definition await (k : call) : conn -> conn := act (Call k).

Definition park (p : pending) (c : conn) : conn :=
  {| session := session c; inflight := (inflight c ++ [p])%list;
     trace := trace c |}.

Definition busy_message : string := "Still processing previous request".
Definition poll_interval : Z := 3000.

(** The [catch] and [finally] blocks of a pipeline handler. *)
Definition finally (c : conn) : conn :=
  with_session (set_isProcessing false) c.

Definition catch (h : handler) (err_message : string) (c : conn) : conn :=
  finally (emit (error (error_type h) err_message) c).

(** [AiProcessing(sessionData.image, message)] up to its [await]. *)
Definition call_AiProcessing (h : handler) (message : string) (c : conn)
  : conn * pending :=
  let img := image (session c) in
  (await (generateText (AiAgent.build_request img message)) c,
   await_AiProcessing h img message).

(** *** Handlers, each up to its first [await] *)

Definition on_audio_full (arrayBuffer : jsval) (c : conn) : conn :=
  if isProcessing (session c)
  then emit (error "busy" busy_message) c
  else
    let c := with_session (set_isProcessing true) c in
    match Buffer_from arrayBuffer with
    | Ok audioBuffer => park await_upload (await (files_upload audioBuffer) c)
    | Throw m => catch full_audio m c
    end.

Definition on_image_chunk (data : chunk_data) (now : Z) (c : conn) : conn :=
  match Buffer_from (chunk data) with
  | Ok bufferChunk =>
      let c :=
        with_session
          (fun s => set_imageChunks (imageChunks s ++ [bufferChunk])%list s) c in
      if isLast data
      then
        let img := Buffer_concat (imageChunks (session c)) in
        let c := with_session (set_image (Some img)) c in
        let c := with_session (set_imageChunks []) c in
        emit (image_received (Buffer_length img) now) c
      else c
  | Throw m => emit (error "image_upload" m) c
  end.

Definition on_text_message (message : string) (c : conn) : conn :=
  if isProcessing (session c)
  then emit (error "busy" busy_message) c
  else
    let c := with_session (set_isProcessing true) c in
    let '(c, p) := call_AiProcessing text_processing message c in
    park p c.

Definition on_clear_image (c : conn) : conn :=
  emit image_cleared (with_session (set_image None) c).

Definition on_disconnect (c : conn) : conn :=
  with_session (set_imageChunks []) (with_session (set_image None) c).

Definition deliver (ev : inbound) (now : Z) (c : conn) : conn :=
  match ev with
  | audio_full arrayBuffer => on_audio_full arrayBuffer c
  | image_chunk data => on_image_chunk data now c
  | text_message message => on_text_message message c
  | clear_image => on_clear_image c
  | disconnect => on_disconnect c
  end.

(** *** Continuations *)

(** [new Error(completedTranscript.error).message] *)
Definition Error_message (e : option string) : string :=
  match e with Some m => m | None => "" end.

(** [completedTranscript.text || ""] *)
Definition text_or_empty (t : option string) : string :=
  match t with Some s => s | None => "" end.

(** The rest of both pipelines after [AiProcessing] has settled. *)
Definition after_AiProcessing (h : handler) (r : result string) (c : conn)
  : conn * option pending :=
  match r with
  | Ok aiResponseText =>
      (await (generateContent aiResponseText) c,
       Some (await_textToAudio h aiResponseText))
  | Throw m => (catch h m c, None)
  end.

Definition after_textToAudio (h : handler) (aiResponseText : string)
    (r : result bytes) (now : Z) (c : conn) : conn * option pending :=
  match r with
  | Ok aiAudioBuffer =>
      (finally
         (emit (ai_response aiResponseText (base64_encode aiAudioBuffer) now) c),
       None)
  | Throw m => (catch h m c, None)
  end.

(** Resume a parked handler with the outcome of the call it awaits and
    run it to its next [await] ([Some p]) or to its end ([None]).  A
    reply to a call that is not the awaited one is not a step. *)
Definition resume (p : pending) (r : reply) (c : conn)
  : option (conn * option pending) :=
  match p, r with
  | await_upload, uploaded (Ok uploadResponse) =>
      Some (await (transcripts_create uploadResponse) c, Some await_create)
  | await_upload, uploaded (Throw m) => Some (catch full_audio m c, None)
  | await_create, created (Ok id) =>
      Some (await (transcripts_get id) c, Some (await_get id))
  | await_create, created (Throw m) => Some (catch full_audio m c, None)
  | await_get id, got (Ok completedTranscript) =>
      if (status completedTranscript =? "completed")%string then
        let transcript := text_or_empty (text completedTranscript) in
        let '(c, p) := call_AiProcessing full_audio transcript c in
        Some (c, Some p)
      else if (status completedTranscript =? "error")%string then
        Some (catch full_audio
                (Error_message (error_message completedTranscript)) c, None)
      else
        Some (await (setTimeout poll_interval) c, Some (await_timer id))
  | await_get id, got (Throw m) => Some (catch full_audio m c, None)
  | await_timer id, timer_fired =>
      Some (await (transcripts_get id) c, Some (await_get id))
  | await_AiProcessing h img message, generated remote =>
      Some (after_AiProcessing h
              (AiAgent.AiProcessing remote img message) c)
  | await_textToAudio h aiResponseText, synthesized w now =>
      Some (after_textToAudio h aiResponseText
              (Tts.textToAudio w aiResponseText) now c)
  | _, _ => None
  end.

(** *** The transition system *)

Inductive input : Type :=
| Deliver (ev : inbound) (now : Z)
| Resume (k : nat) (r : reply).

Definition settle (k : nat) (next : option pending) (c : conn) : conn :=
  {| session := session c;
     inflight := match next with
                 | Some p => <[k := p]> (inflight c)
                 | None => delete k (inflight c)
                 end;
     trace := trace c |}.

Definition step (c : conn) (i : input) : option conn :=
  match i with
  | Deliver ev now => Some (deliver ev now c)
  | Resume k r =>
      p ← inflight c !! k;
      '(c', next) ← resume p r c;
      Some (settle k next c')
  end.

Fixpoint run (c : conn) (ins : list input) : option conn :=
  match ins with
  | [] => Some c
  | i :: rest => c' ← step c i; run c' rest
  end.

End Gateway.

(** ** The server: one [conn] per connected socket, keyed by [socket.id] *)
Module Server.

Abbreviation server := (gmap string Gateway.conn).

(** [io.on("connection", ...)]: a fresh [sessionData] for the socket. *)
Definition on_connection (id : string) (srv : server) : server :=
  <[id := Gateway.new_conn]> srv.

(** An input on socket [id] runs that socket's handlers only. *)
Definition step (srv : server) (id : string) (i : Gateway.input)
  : option server :=
  c ← srv !! id;
  c' ← Gateway.step c i;
  Some (<[id := c']> srv).

End Server.

(** ** Observations on traces *)
Module Obs.
Import Gateway.

Definition count (f : action -> bool) (t : list action) : nat :=
  length (List.filter f t).

(** A busy rejection. *)
Definition is_busy (a : action) : bool :=
  match a with
  | Emit (error type _) => (type =? "busy")%string
  | _ => false
  end.

(** The terminal signal of a pipeline: [ai_response], or an [error] of
    type ["full_audio"] or ["text_processing"]. *)
Definition is_outcome (a : action) : bool :=
  match a with
  | Emit (ai_response _ _ _) => true
  | Emit (error type _) =>
      (type =? "full_audio")%string || (type =? "text_processing")%string
  | _ => false
  end.

Definition is_upload (a : action) : bool :=
  match a with Call (files_upload _) => true | _ => false end.

Definition is_inference (a : action) : bool :=
  match a with Call (generateText _) => true | _ => false end.

Definition is_synthesis (a : action) : bool :=
  match a with Call (generateContent _) => true | _ => false end.

(** The events that start a pipeline. *)
Definition triggers (ev : inbound) : bool :=
  match ev with
  | audio_full _ | text_message _ => true
  | _ => false
  end.



(** [Processing] with exactly one parked handler, or [Idle] with none. *)
Definition single_flight (c : conn) : Prop :=
  (isProcessing (session c) = true /\ length (inflight c) = 1%nat)
  \/ (isProcessing (session c) = false /\ inflight c = []).

(** A transcript status that keeps the poll loop going. *)
Definition in_progress (t : transcript) : bool :=
  negb (status t =? "completed")%string && negb (status t =? "error")%string.

(** One turn of the poll loop: the job is not done, the timer fires. *)
Definition poll_round (t : transcript) : list input :=
  [Resume 0 (got (Ok t)); Resume 0 timer_fired].

Definition poll_rounds (ts : list transcript) : list input :=
  List.concat (map poll_round ts).

(** What one such turn adds to the trace. *)
Definition poll_trace (id : string) (ts : list transcript) : list action :=
  List.concat
    (map (fun _ => [Call (setTimeout 3000); Call (transcripts_get id)]) ts).

(** A chunk event carrying bytes. *)
Definition chunk_event (isLast : bool) (b : bytes * Z) : input :=
  Deliver (image_chunk {| chunk := JBinary (fst b); isLast := isLast |})
          (snd b).

(** Inference and synthesis calls a parked handler has made so far. *)
Definition inferred (p : pending) : nat :=
  match p with
  | await_AiProcessing _ _ _ | await_textToAudio _ _ => 1
  | _ => 0
  end.

Definition voiced (p : pending) : nat :=
  match p with
  | await_textToAudio _ _ => 1
  | _ => 0
  end.

(** The state of a connection after one pipeline has been admitted,
    relative to the counts [B], [U], [O], [I], [S] of busy errors,
    uploads, outcomes, inference calls and synthesis calls in the trace
    at admission: the pipeline is parked and has produced no outcome,
    or it is over and has produced exactly one. *)
Definition flight (B U O I S : nat) (c : conn) : Prop :=
  count is_busy (trace c) = B
  /\ count is_upload (trace c) = U
  /\ ((isProcessing (session c) = true
       /\ exists p, inflight c = [p]
            /\ count is_outcome (trace c) = O
            /\ count is_inference (trace c) = (I + inferred p)%nat
            /\ count is_synthesis (trace c) = (S + voiced p)%nat)
      \/ (isProcessing (session c) = false
          /\ inflight c = []
          /\ count is_outcome (trace c) = (O + 1)%nat
          /\ (I <= count is_inference (trace c) <= I + 1)%nat
          /\ (S <= count is_synthesis (trace c) <= S + 1)%nat)).

End Obs.

(** ** The specification's reading of the inference result *)
Module Spec.

Definition segment_texts (r : AiAgent.response) : list string :=
  List.concat
    (map (fun st =>
            List.concat
              (map (fun c => match c with
                             | AiAgent.text_output t => [t]
                             | AiAgent.other_output _ => []
                             end)
                   (AiAgent.step_content st)))
         (AiAgent.steps r)).

(** "Concatenates all textual segments of the model's response, in the
    order the model emits them, into a single string." *)
Definition concatenated_text (r : AiAgent.response) : string :=
  String.concat "" (segment_texts r).

(** "returns no textual content" *)
Definition no_textual_content (r : AiAgent.response) : Prop :=
  segment_texts r = [].

Fixpoint without_newlines (s : string) : string :=
  match s with
  | EmptyString => EmptyString
  | String c rest =>
      if Ascii.eqb c (ascii_of_nat 10) then without_newlines rest
      else String c (without_newlines rest)
  end.

(** A string of [n] newlines. *)
Fixpoint newlines (n : nat) : string :=
  match n with
  | O => ""
  | S n => newline ++ newlines n
  end.

(** The boundaries of an answer: between consecutive segments of a
    step, one less than its segments; between consecutive steps, one
    less than the steps. *)
Definition separators (r : AiAgent.response) : nat :=
  (list_sum (map (fun st => pred (List.length (AiAgent.step_content st)))
               (AiAgent.steps r))
   + pred (List.length (AiAgent.steps r)))%nat.

End Spec.

(** ** Sample worlds and sessions *)
Module Scenario.
Import Gateway Obs.

Definition tts_response (d : option string) : Tts.response :=
  {| Tts.candidates :=
       Some [ {| Tts.content :=
                   Some {| Tts.parts :=
                             Some [ {| Tts.inlineData :=
                                         Some {| Tts.data := d |} |} ] |} |} ] |}.

Definition tts_world (d : option string) (e : Wav.ending) : Tts.world :=
  {| Tts.generateContent := fun _ => Ok (tts_response d);
     Tts.ending := e;
     Tts.DEBUG_SAVE_AUDIO := None;
     Tts.Date_now := 0;
     Tts.save_ending := Wav.finish |}.

Definition one_text_step (t : string) : AiAgent.response :=
  {| AiAgent.steps :=
       [ {| AiAgent.step_content := [AiAgent.text_output t] |} ] |}.

(** An answer of two steps with no segment at all. *)
Definition two_empty_steps : AiAgent.response :=
  {| AiAgent.steps :=
       [ {| AiAgent.step_content := [] |};
         {| AiAgent.step_content := [] |} ] |}.

(** A session in the middle of a text pipeline, holding one chunk. *)
Definition processing_conn : conn :=
  deliver (text_message "What is 2+2?") 2
    (deliver (image_chunk {| chunk := JBinary [x89; x50];
                             isLast := false |}) 1 new_conn).

(** An idle session holding an image and one buffered chunk. *)
Definition idle_conn : conn :=
  deliver (image_chunk {| chunk := JBinary [x4e]; isLast := false |}) 2
    (deliver (image_chunk {| chunk := JBinary [x89; x50];
                             isLast := true |}) 1 new_conn).

Definition two_sockets : Server.server :=
  Server.on_connection "a" (Server.on_connection "b" ∅).

(** A session whose [audio_full] handler has uploaded the audio and
    created the job ["job-1"]. *)
Definition polling_conn : conn :=
  match run new_conn
          [ Deliver (audio_full (JBinary [x01; x02])) 1;
            Resume 0 (uploaded (Ok "https://cdn/upload/1"));
            Resume 0 (created (Ok "job-1")) ] with
  | Some c => c
  | None => new_conn
  end.

Definition queued : transcript :=
  {| status := "queued"; text := None; error_message := None |}.

Definition processing : transcript :=
  {| status := "processing"; text := None; error_message := None |}.

Definition failed : transcript :=
  {| status := "error"; text := None;
     error_message := Some "Audio file is too short" |}.

Definition back_to_back : list input :=
  [ Deliver (text_message "What is 2+2?") 1;
    Deliver (audio_full (JBinary [x01; x02])) 2;
    Resume 0 (generated (fun _ => Ok (one_text_step "4.")));
    Resume 0 (synthesized (tts_world (Some "AAEC") Wav.finish) 9) ].

Definition answered_conn : conn :=
  match run new_conn back_to_back with
  | Some c => c
  | None => new_conn
  end.

End Scenario.

(** ** Further observations, for the properties beyond the claims *)
Module Cover.
Import Gateway Obs Scenario.

(** A delivered event that asks for a pipeline. *)
Definition triggering (i : input) : bool :=
  match i with
  | Deliver ev _ => triggers ev
  | Resume _ _ => false
  end.

(** Number of pipeline requests among the inputs. *)
Definition requests (ins : list input) : nat :=
  length (List.filter triggering ins).

Definition is_poll (a : action) : bool :=
  match a with Call (transcripts_get _) => true | _ => false end.

Definition is_image_upload_error (a : action) : bool :=
  match a with
  | Emit (error type _) => (type =? "image_upload")%string
  | _ => false
  end.

(** The busy rejection, as emitted. *)
Definition busy_error : action := Emit (error "busy" busy_message).

(** An [error] event is one of the four the handlers can emit, and a
    busy one carries the fixed message. *)
Definition documented (a : action) : bool :=
  match a with
  | Emit (error type message) =>
      ((type =? "busy")%string && (message =? busy_message)%string)
      || (type =? "full_audio")%string
      || (type =? "image_upload")%string
      || (type =? "text_processing")%string
  | _ => true
  end.

Definition deliver_all (evs : list (inbound * Z)) : list input :=
  map (fun e => Deliver (fst e) (snd e)) evs.

(** [image_chunk] events with arbitrary payloads. *)
Definition chunk_inputs (ds : list (chunk_data * Z)) : list input :=
  map (fun d => Deliver (image_chunk (fst d)) (snd d)) ds.

Definition converts (d : chunk_data * Z) : bool :=
  is_Ok (Buffer_from (chunk (fst d))).

(** The events whose handlers assign [image] or [imageChunks]. *)
Definition touches_image (i : input) : bool :=
  match i with
  | Deliver (image_chunk _) _ | Deliver clear_image _
  | Deliver disconnect _ => true
  | _ => false
  end.

(** Sum of the lengths of the buffers of a list. *)
Definition total_length (l : list bytes) : Z :=
  fold_right (fun b n => Buffer_length b + n) 0 l.

(** A base64 digit and its value agree. *)
Definition digit_ok (n : nat) : bool :=
  let c := base64_char (Z.of_nat n) in
  negb (Ascii.eqb c "="%char)
  && match unbase64 c with
     | Some v => v =? Z.of_nat n
     | None => false
     end.

(** The fields of a format fit the header's 16- and 32-bit slots. *)
Definition representable (channels rate sampleWidth : Z) : Prop :=
  0 <= channels <= 65535
  /\ 0 <= rate <= 4294967295
  /\ 0 <= sampleWidth * 8 <= 65535
  /\ rate * channels * sampleWidth <= 4294967295
  /\ channels * sampleWidth <= 65535.

(** An upload abandoned after one chunk, then [clear_image]. *)
Definition stale_conn : conn :=
  deliver clear_image 2
    (deliver (image_chunk {| chunk := JBinary [xff; xd8];
                             isLast := false |}) 1 new_conn).

(** A text pipeline parked on its synthesis call. *)
Definition voicing_conn : conn :=
  match run new_conn
          [ Deliver (text_message "What is 2+2?") 1;
            Resume 0 (generated (fun _ => Ok (one_text_step "4."))) ] with
  | Some c => c
  | None => new_conn
  end.

Definition completed (t : string) : transcript :=
  {| status := "completed"; text := Some t; error_message := None |}.

(** A synthesis response whose audio sits in the second part. *)
Definition audio_in_second_part : Tts.world :=
  {| Tts.generateContent :=
       fun _ =>
         Ok {| Tts.candidates :=
                 Some [ {| Tts.content :=
                             Some {| Tts.parts :=
                                       Some [ {| Tts.inlineData := None |};
                                              {| Tts.inlineData :=
                                                   Some {| Tts.data :=
                                                             Some "AAEC" |} |} ]
                                  |} |} ] |};
     Tts.ending := Wav.finish;
     Tts.DEBUG_SAVE_AUDIO := None;
     Tts.Date_now := 0;
     Tts.save_ending := Wav.finish |}.



End Cover.

(** ** Auxiliary definitions *)

(** The debug save, if it is on, does not fail. *)
Definition debug_save_ok (w : Tts.world) : bool :=
  match Tts.save_ending w with
  | Wav.error _ => negb (Tts.debugging w)
  | Wav.finish => true
  end.

(** Plain concatenation of a list of strings. *)
Fixpoint flat (l : list string) : string :=
  match l with
  | [] => ""
  | x :: rest => x ++ flat rest
  end.

(** The header [wav.Writer] emits for mono, 24000 Hz, 16-bit. *)
Definition pcm_header : bytes := Eval vm_compute in
    match Wav._writeHeader {| Wav.channels := 1; Wav.sampleRate := 24000;
                              Wav.bitDepth := 16 |} with
    | Ok h => h
    | Throw _ => []
    end.

Arguments pcm_header : simpl never.

(** * The codecs on known values *)

Example base64_encode_samples :
  base64_encode [x4d; x61; x6e] = "TWFu"
  /\ base64_encode [x4d; x61] = "TWE="
  /\ base64_encode [x4d] = "TQ=="
  /\ base64_encode [] = "".
Proof. repeat split; reflexivity. Qed.

Example base64_decode_samples :
  Buffer_from_base64 "TWFu" = [x4d; x61; x6e]
  /\ Buffer_from_base64 "TWE=" = [x4d; x61]
  /\ Buffer_from_base64 "TQ==" = [x4d]
  /\ Buffer_from_base64 "AAEC" = [x00; x01; x02].
Proof. repeat split; reflexivity. Qed.

Example pcm_header_bytes :
  length pcm_header = 44%nat
  /\ take 4 pcm_header = Wav.RIFF
  /\ readUInt32LE pcm_header 24 = Some 24000
  /\ readUInt16LE pcm_header 34 = Some 16.
Proof. repeat split; reflexivity. Qed.

(** * Container Framer *)

Lemma new_Writer_fixed_format :
  Wav.new_Writer {| Wav.channels := 1; Wav.sampleRate := 24000;
                    Wav.bitDepth := 2 * 8 |}
  = Ok {| Wav.pushed := [pcm_header]; Wav.bytesProcessed := 0 |}.
Proof. vm_compute. reflexivity. Qed.

Lemma pipe_all (source : list bytes) (dest : BufferWritable) :
  getBuffer (pipe source dest) = (getBuffer dest ++ Buffer_concat source)%list.
Proof.
  unfold pipe.
  revert dest. induction source as [|ch source IH]; intros dest; simpl.
  - unfold Buffer_concat. simpl. now rewrite app_nil_r.
  - rewrite IH. unfold getBuffer, _write, Buffer_concat. simpl.
    rewrite concat_app. simpl. rewrite app_nil_r. now rewrite <- app_assoc.
Qed.

Lemma getWaveBuffer_drained (e : Wav.ending) (pcm : bytes) :
  drained e ->
  getWaveBuffer e pcm 1 24000 2 = Ok (pcm_header ++ pcm)%list.
Proof.
  destruct e as [|m]; intros Hd; [|destruct Hd].
  unfold getWaveBuffer. rewrite new_Writer_fixed_format.
  unfold bind, Wav.write, Wav.pushed. f_equal. rewrite pipe_all.
  unfold Buffer_concat, getBuffer, new_BufferWritable. simpl.
  now rewrite app_nil_r.
Qed.


Lemma parse_pcm_header (pcm : bytes) :
  parse_header (pcm_header ++ pcm)%list
  = Some {| hdr_riffSize := Wav.MAX_WAV + 36; hdr_audioFormat := 1;
            hdr_channels := 1; hdr_sampleRate := 24000;
            hdr_byteRate := 48000; hdr_blockAlign := 2;
            hdr_bitsPerSample := 16; hdr_dataLength := Wav.MAX_WAV |}.
Proof. vm_compute. reflexivity. Qed.

(** What does hold of the framing: for every headerless PCM payload
    framed with (mono, 24000 Hz, 16-bit), a finished writer gives a
    44-byte RIFF/WAVE header declaring PCM, one channel, 24000 Hz, 16
    bits per sample, followed by exactly the original bytes; the data
    length the header declares is the streaming writer's placeholder
    [MAX_WAV], whatever the payload's length. *)
Theorem framer_roundtrip (e : Wav.ending) (pcm : bytes) :
  drained e ->
  exists (b : bytes) (h : wav_header),
    getWaveBuffer e pcm default_channels default_rate default_sampleWidth = Ok b
    /\ parse_header b = Some h
    /\ hdr_audioFormat h = 1
    /\ hdr_channels h = 1
    /\ hdr_sampleRate h = 24000
    /\ hdr_bitsPerSample h = 16
    /\ hdr_blockAlign h = 2
    /\ hdr_dataLength h = Wav.MAX_WAV
    /\ strip_header b = pcm
    /\ Buffer_length b = 44 + Buffer_length pcm.
Proof.
  intros Hd. eexists; eexists. split.
  - apply getWaveBuffer_drained, Hd.
  - split; [apply parse_pcm_header|].
    repeat (split; [reflexivity|]).
    unfold Buffer_length. rewrite length_app.
    change (length pcm_header) with 44%nat. lia.
Qed.

Lemma framer_roundtrip_witness :
  exists (b : bytes) (h : wav_header),
    getWaveBuffer Wav.finish [x01; x02; x03; x04]
      default_channels default_rate default_sampleWidth = Ok b
    /\ parse_header b = Some h
    /\ hdr_audioFormat h = 1
    /\ hdr_channels h = 1
    /\ hdr_sampleRate h = 24000
    /\ hdr_bitsPerSample h = 16
    /\ hdr_blockAlign h = 2
    /\ hdr_dataLength h = Wav.MAX_WAV
    /\ strip_header b = [x01; x02; x03; x04]
    /\ Buffer_length b = 44 + Buffer_length [x01; x02; x03; x04].
Proof. apply (framer_roundtrip Wav.finish [x01; x02; x03; x04]). exact I. Defined.

(** C6, at the failing input: a four-byte payload (two 16-bit mono
    samples) is framed, completely and with the right format, under a
    header that declares 4294967195 data bytes, that is 2147483597
    samples, where the round trip of the claim needs the payload's own
    count, 2. *)
Lemma framer_declared_length_at_failing_input :
  let pcm := [x01; x02; x03; x04] in
  exists (b : bytes) (h : wav_header),
    getWaveBuffer Wav.finish pcm 1 24000 2 = Ok b
    /\ parse_header b = Some h
    /\ hdr_channels h = 1
    /\ hdr_sampleRate h = 24000
    /\ hdr_bitsPerSample h = 16
    /\ strip_header b = pcm
    /\ payload_samples pcm 1 2 = 2
    /\ declared_samples h = 2147483597
    /\ declared_samples h <> payload_samples pcm 1 2
    /\ hdr_dataLength h <> Buffer_length pcm.
Proof.
  eexists; eexists. split; [reflexivity|]. split; [reflexivity|].
  vm_compute. repeat split; congruence.
Qed.

(** * Synthesis adapter *)

Lemma debug_save_settles (w : Tts.world) (fileName : string) (raw : bytes) :
  debug_save_ok w = true ->
  (if Tts.debugging w
   then saveWaveFile (Tts.save_ending w) fileName raw
          default_channels default_rate default_sampleWidth
   else Ok tt) = Ok tt.
Proof.
  unfold debug_save_ok. intros Hok.
  destruct (Tts.debugging w); [|reflexivity].
  destruct (Tts.save_ending w) as [|m]; [|discriminate Hok].
  unfold saveWaveFile. change default_channels with 1.
  change default_rate with 24000. change default_sampleWidth with 2.
  now rewrite new_Writer_fixed_format.
Qed.



(** * Inference adapter *)

Lemma append_String (c : ascii) (s t : string) :
  (String c s ++ t)%string = String c (s ++ t).
Proof. reflexivity. Qed.

Lemma append_Empty (t : string) : ("" ++ t)%string = t.
Proof. reflexivity. Qed.

Ltac string_simpl := simpl; rewrite ?append_String, ?append_Empty; simpl.

Lemma append_empty_r (s : string) : (s ++ "")%string = s.
Proof.
  induction s as [|c s IH]; string_simpl; [reflexivity | now rewrite IH].
Qed.

Lemma append_assoc (a b c : string) :
  ((a ++ b) ++ c)%string = (a ++ (b ++ c))%string.
Proof.
  induction a as [|x a IH]; string_simpl; [reflexivity | now rewrite IH].
Qed.

Lemma flat_app (l1 l2 : list string) :
  flat (l1 ++ l2)%list = (flat l1 ++ flat l2)%string.
Proof.
  induction l1 as [|x l1 IH]; simpl; [reflexivity|].
  now rewrite IH, append_assoc.
Qed.

Lemma concat_empty_flat (l : list string) : String.concat "" l = flat l.
Proof.
  induction l as [|x l IH]; [reflexivity|].
  destruct l as [|y l].
  - simpl. now rewrite append_empty_r.
  - change (String.concat "" (x :: y :: l))
      with (x ++ "" ++ String.concat "" (y :: l))%string.
    now rewrite IH.
Qed.

Lemma without_newlines_app (a b : string) :
  Spec.without_newlines (a ++ b)
  = (Spec.without_newlines a ++ Spec.without_newlines b)%string.
Proof.
  induction a as [|c a IH]; string_simpl; [reflexivity|].
  destruct (Ascii.eqb c _); string_simpl; now rewrite IH.
Qed.

Lemma without_newlines_join (l : list string) :
  Spec.without_newlines (join newline l) = flat (map Spec.without_newlines l).
Proof.
  induction l as [|x l IH]; [reflexivity|].
  destruct l as [|y l].
  - simpl. now rewrite append_empty_r.
  - change (join newline (x :: y :: l))
      with (x ++ newline ++ join newline (y :: l))%string.
    rewrite !without_newlines_app, IH. reflexivity.
Qed.

Lemma without_newlines_flat (l : list string) :
  Spec.without_newlines (flat l) = flat (map Spec.without_newlines l).
Proof.
  induction l as [|x l IH]; [reflexivity|].
  simpl. now rewrite without_newlines_app, IH.
Qed.

Lemma step_texts_flat (cs : list AiAgent.output) :
  flat (map AiAgent.output_text cs)
  = flat (List.concat
            (map (fun c => match c with
                           | AiAgent.text_output t => [t]
                           | AiAgent.other_output _ => []
                           end) cs)).
Proof.
  induction cs as [|c cs IH]; [reflexivity|].
  destruct c as [t|ty]; simpl; now rewrite IH.
Qed.

Lemma resultText_without_newlines (r : AiAgent.response) :
  Spec.without_newlines (AiAgent.resultText r)
  = Spec.without_newlines (Spec.concatenated_text r).
Proof.
  unfold AiAgent.resultText, Spec.concatenated_text, Spec.segment_texts.
  rewrite without_newlines_join, concat_empty_flat, without_newlines_flat.
  induction (AiAgent.steps r) as [|st sts IH]; [reflexivity|].
  simpl. rewrite map_app, flat_app, <- IH. f_equal.
  rewrite without_newlines_join, <- without_newlines_flat.
  rewrite <- without_newlines_flat. f_equal. apply step_texts_flat.
Qed.

Lemma without_newlines_empty (s : string) :
  Spec.without_newlines s = "" ->
  forall c, In c (list_ascii_of_string s) -> c = ascii_of_nat 10.
Proof.
  induction s as [|a s IH]; simpl; [tauto|].
  destruct (Ascii.eqb a _) eqn:Ha; [|discriminate].
  apply Ascii.eqb_eq in Ha. intros Hs c [<-|Hc]; [exact Ha | now apply IH].
Qed.

Lemma newlines_add (a b : nat) :
  Spec.newlines (a + b) = (Spec.newlines a ++ Spec.newlines b)%string.
Proof.
  induction a as [|a IH]; [reflexivity|].
  cbn [Nat.add Spec.newlines]. now rewrite IH, append_assoc.
Qed.

Lemma join_newlines (ns : list nat) :
  join newline (map Spec.newlines ns)
  = Spec.newlines (list_sum ns + pred (List.length ns)).
Proof.
  induction ns as [|n ns IH]; [reflexivity|].
  destruct ns as [|m ns].
  - cbn [map join]. f_equal. simpl. lia.
  - change (join newline (map Spec.newlines (n :: m :: ns)))
      with (Spec.newlines n ++ newline
            ++ join newline (map Spec.newlines (m :: ns)))%string.
    rewrite IH.
    change (newline ++ Spec.newlines ?k)%string with (Spec.newlines (S k)).
    rewrite <- newlines_add. f_equal. simpl. lia.
Qed.

Lemma concat_nil_inv {A : Type} (ls : list (list A)) :
  List.concat ls = [] -> forall l, In l ls -> l = [].
Proof.
  induction ls as [|x ls IH]; simpl; [tauto|].
  intros H. apply app_eq_nil in H as [-> H]. intros l [<-|Hl]; auto.
Qed.

Lemma step_without_text (cs : list AiAgent.output) :
  List.concat
    (map (fun c => match c with
                   | AiAgent.text_output t => [t]
                   | AiAgent.other_output _ => []
                   end) cs) = [] ->
  map AiAgent.output_text cs = map Spec.newlines (repeat O (List.length cs)).
Proof.
  induction cs as [|c cs IH]; [reflexivity|].
  destruct c as [t|k]; simpl; [discriminate|].
  intros H. now rewrite IH.
Qed.

Lemma list_sum_repeat_0 (n : nat) : list_sum (repeat O n) = O.
Proof. induction n as [|n IH]; [reflexivity | exact IH]. Qed.

Lemma resultText_without_text (r : AiAgent.response) :
  Spec.no_textual_content r ->
  AiAgent.resultText r = Spec.newlines (Spec.separators r).
Proof.
  unfold Spec.no_textual_content, Spec.segment_texts, AiAgent.resultText,
    Spec.separators.
  intros Hnone.
  pose proof (concat_nil_inv _ Hnone) as Hall. clear Hnone.
  rewrite <- (length_map (fun st => pred (List.length (AiAgent.step_content st)))
                (AiAgent.steps r)).
  rewrite <- join_newlines, map_map. f_equal.
  induction (AiAgent.steps r) as [|st sts IH]; [reflexivity|].
  cbn [map]. f_equal.
  - rewrite step_without_text by (apply Hall; left; reflexivity).
    rewrite join_newlines, list_sum_repeat_0, repeat_length. reflexivity.
  - apply IH. intros l Hl. apply Hall. right. exact Hl.
Qed.

Lemma separators_at_most_one (r : AiAgent.response) :
  (List.length (AiAgent.steps r) <= 1)%nat ->
  (forall st, In st (AiAgent.steps r) ->
     (List.length (AiAgent.step_content st) <= 1)%nat) ->
  Spec.separators r = O.
Proof.
  unfold Spec.separators. intros Hsteps Hseg.
  destruct (AiAgent.steps r) as [|st [|st' sts]]; [reflexivity| |simpl in Hsteps; lia].
  specialize (Hseg st (or_introl eq_refl)). simpl. lia.
Qed.

(** C3, as the code has it: the request carries the user's text turn
    and, exactly when an image is held, a second user turn made of the
    instruction "Describe this image in detail" and the image as a
    base64 [data:] URL; a failure of the remote call is passed on; every
    answer of the remote call gives a result, which joins the steps, and
    within a step the segments, with a newline, a segment that is not
    text counting as the empty string.  Hence the result without its
    newlines is the concatenation of the text segments without theirs,
    and an answer with no text segment gives, with no error, newlines
    only: one for each boundary between consecutive segments of a step
    and one for each boundary between consecutive steps, so the empty
    string exactly when there is no such boundary, as when the answer
    has at most one step and that step at most one segment. *)
Theorem AiProcessing_contract
    (remote : AiAgent.request -> result AiAgent.response)
    (img : option bytes) (message : string) :
  let request := AiAgent.build_request img message in
  AiAgent.messages request
  = ({| AiAgent.role := "user";
        AiAgent.content := [AiAgent.text_part message] |}
     :: match img with
        | Some buf =>
            [ {| AiAgent.role := "user";
                 AiAgent.content :=
                   [ AiAgent.text_part "Describe this image in detail";
                     AiAgent.image_part
                       ("data:image/png;base64," ++ base64_encode buf) ] |} ]
        | None => []
        end)
  /\ (forall m, remote request = Throw m ->
        AiAgent.AiProcessing remote img message = Throw m)
  /\ (forall r, remote request = Ok r ->
        exists out,
          AiAgent.AiProcessing remote img message = Ok out
          /\ out = join newline
                     (map (fun st =>
                             join newline
                               (map AiAgent.output_text (AiAgent.step_content st)))
                          (AiAgent.steps r))
          /\ Spec.without_newlines out
             = Spec.without_newlines (Spec.concatenated_text r)
          /\ (Spec.no_textual_content r ->
              forall c, In c (list_ascii_of_string out) -> c = ascii_of_nat 10)
          /\ (forall t,
                AiAgent.steps r
                = [ {| AiAgent.step_content := [AiAgent.text_output t] |} ] ->
                out = t)
          /\ (Spec.no_textual_content r ->
              out = Spec.newlines (Spec.separators r)
              /\ (out = "" <-> Spec.separators r = O))
          /\ (Spec.no_textual_content r ->
              (List.length (AiAgent.steps r) <= 1)%nat ->
              (forall st, In st (AiAgent.steps r) ->
                 (List.length (AiAgent.step_content st) <= 1)%nat) ->
              out = "")).
Proof.
  intros request. split; [|split].
  - unfold request. destruct img as [buf|]; reflexivity.
  - intros m Hm. unfold AiAgent.AiProcessing. fold request. now rewrite Hm.
  - intros r Hr. exists (AiAgent.resultText r).
    unfold AiAgent.AiProcessing. fold request. rewrite Hr.
    split; [reflexivity|]. split; [reflexivity|].
    split; [apply resultText_without_newlines|]. split; [|split; [|split]].
    + intros Hnone. apply without_newlines_empty.
      rewrite resultText_without_newlines.
      unfold Spec.concatenated_text. now rewrite Hnone.
    + intros t Ht. unfold AiAgent.resultText. now rewrite Ht.
    + intros Hnone. rewrite (resultText_without_text r Hnone).
      split; [reflexivity|].
      destruct (Spec.separators r) as [|n]; [tauto|].
      split; discriminate.
    + intros Hnone Hsteps Hseg.
      rewrite (resultText_without_text r Hnone).
      now rewrite (separators_at_most_one r Hsteps Hseg).
Qed.

Lemma AiProcessing_contract_witness :
  AiAgent.AiProcessing (fun _ => Throw "quota exceeded") None "What is 2+2?"
  = Throw "quota exceeded"
  /\ (exists out,
        AiAgent.AiProcessing (fun _ => Ok (Scenario.one_text_step "4.")) None
          "What is 2+2?" = Ok out
        /\ out = "4.")
  /\ (exists out,
        AiAgent.AiProcessing (fun _ => Ok Scenario.two_empty_steps) None
          "What is 2+2?" = Ok out
        /\ out = newline).
Proof.
  split; [|split].
  - apply (proj1 (proj2 (AiProcessing_contract
                           (fun _ => Throw "quota exceeded") None
                           "What is 2+2?")) "quota exceeded").
    reflexivity.
  - destruct (proj2 (proj2 (AiProcessing_contract
                              (fun _ => Ok (Scenario.one_text_step "4.")) None
                              "What is 2+2?"))
                (Scenario.one_text_step "4.") eq_refl)
      as (out & Hout & _ & _ & _ & Hone & _).
    exists out. split; [exact Hout|]. apply Hone. reflexivity.
  - destruct (proj2 (proj2 (AiProcessing_contract
                              (fun _ => Ok Scenario.two_empty_steps) None
                              "What is 2+2?"))
                Scenario.two_empty_steps eq_refl)
      as (out & Hout & _ & _ & _ & _ & Hsep & _).
    exists out. split; [exact Hout|]. exact (proj1 (Hsep eq_refl)).
Defined.

(** C3 as stated fails twice over: two text segments "a" and "b" come
    back separated by a newline, not concatenated; and an answer with no
    text segment at all is returned as the empty string, not as a
    failure. *)
Lemma AiProcessing_concatenation_counterexample :
  let two :=
    {| AiAgent.steps :=
         [ {| AiAgent.step_content :=
                [AiAgent.text_output "a"; AiAgent.text_output "b"] |} ] |} in
  let none :=
    {| AiAgent.steps :=
         [ {| AiAgent.step_content := [AiAgent.other_output "tool-call"] |} ] |} in
  AiAgent.AiProcessing (fun _ => Ok two) None "hi"
  = Ok ("a" ++ newline ++ "b")%string
  /\ Spec.concatenated_text two = "ab"
  /\ AiAgent.AiProcessing (fun _ => Ok two) None "hi"
     <> Ok (Spec.concatenated_text two)
  /\ Spec.no_textual_content none
  /\ AiAgent.AiProcessing (fun _ => Ok none) None "hi" = Ok "".
Proof.
  repeat split; try reflexivity. vm_compute. discriminate.
Qed.

(** * Session state machine *)

Section Session.
Import Gateway Obs Scenario.
Local Open Scope list_scope.

Lemma run_app (c : conn) (l1 l2 : list input) :
  run c (l1 ++ l2) = c' ← run c l1; run c' l2.
Proof.
  revert c. induction l1 as [|i l1 IH]; intros c; simpl; [reflexivity|].
  destruct (step c i) as [c1|]; simpl; [apply IH | reflexivity].
Qed.

Lemma count_snoc (f : action -> bool) (t : list action) (a : action) :
  count f (t ++ [a]) = (count f t + if f a then 1 else 0)%nat.
Proof.
  unfold count. rewrite List.filter_app, length_app. simpl.
  destruct (f a); reflexivity.
Qed.

(** ** Image upload *)

Lemma chunks_buffered (cs : list (bytes * Z)) (c : conn) :
  exists c',
    run c (map (chunk_event false) cs) = Some c'
    /\ image (session c') = image (session c)
    /\ imageChunks (session c') = imageChunks (session c) ++ map fst cs
    /\ isProcessing (session c') = isProcessing (session c)
    /\ inflight c' = inflight c
    /\ trace c' = trace c.
Proof.
  revert c. induction cs as [|[b t] cs IH]; intros c.
  - exists c. simpl. rewrite app_nil_r. repeat split; reflexivity.
  - destruct (IH (deliver (image_chunk {| chunk := JBinary b;
                                          isLast := false |}) t c))
      as (c' & Hrun & Himg & Hch & Hp & Hin & Htr).
    exists c'. simpl in *. rewrite Hrun, Himg, Hch, Hp, Hin, Htr.
    rewrite <- app_assoc. repeat split; reflexivity.
Qed.

(** C2: from an empty assembly buffer, [N] chunk events of which only
    the last is marked [isLast] leave the session's image equal to the
    concatenation of the [N] chunks in arrival order and the buffer
    empty, and emit one [image_received] whose size is the length of
    that concatenation. *)
Theorem image_reassembly (c : conn) (cs : list (bytes * Z))
    (last : bytes) (now : Z) :
  imageChunks (session c) = [] ->
  let whole := Buffer_concat (map fst cs ++ [last]) in
  exists c',
    run c (map (chunk_event false) cs ++ [chunk_event true (last, now)])
    = Some c'
    /\ image (session c') = Some whole
    /\ imageChunks (session c') = []
    /\ trace c' = trace c ++ [Emit (image_received (Buffer_length whole) now)]
    /\ isProcessing (session c') = isProcessing (session c)
    /\ inflight c' = inflight c.
Proof.
  intros Hempty whole.
  destruct (chunks_buffered cs c) as (c1 & Hrun & Himg & Hch & Hp & Hin & Htr).
  rewrite Hempty in Hch. simpl in Hch.
  eexists. rewrite run_app, Hrun. simpl. split; [reflexivity|].
  simpl. rewrite Hch, Htr, Hp, Hin. repeat split; reflexivity.
Qed.

Lemma image_reassembly_witness :
  exists c',
    run new_conn
      [ chunk_event false ([x89; x50], 1); chunk_event false ([x4e], 2);
        chunk_event true ([x47; x0d], 3) ] = Some c'
    /\ image (session c') = Some [x89; x50; x4e; x47; x0d]
    /\ imageChunks (session c') = []
    /\ trace c' = [Emit (image_received 5 3)]
    /\ isProcessing (session c') = false
    /\ inflight c' = [].
Proof.
  apply (image_reassembly new_conn [([x89; x50], 1); ([x4e], 2)]
           [x47; x0d] 3).
  reflexivity.
Defined.

(** C7: an [image_chunk] event carrying bytes is appended to the
    assembly buffer whatever [isProcessing] is, a terminal one completes
    the reassembly, and in neither case is a busy error emitted or the
    pipeline in flight, if any, disturbed. *)
Theorem image_chunk_ignores_busy (c : conn) (data : chunk_data)
    (bufferChunk : bytes) (now : Z) :
  Buffer_from (chunk data) = Ok bufferChunk ->
  let c' := deliver (image_chunk data) now c in
  let buffered := imageChunks (session c) ++ [bufferChunk] in
  isProcessing (session c') = isProcessing (session c)
  /\ inflight c' = inflight c
  /\ count is_busy (trace c') = count is_busy (trace c)
  /\ (if isLast data
      then image (session c') = Some (Buffer_concat buffered)
           /\ imageChunks (session c') = []
           /\ trace c'
              = trace c
                ++ [Emit (image_received
                            (Buffer_length (Buffer_concat buffered)) now)]
      else image (session c') = image (session c)
           /\ imageChunks (session c') = buffered
           /\ trace c' = trace c).
Proof.
  intros Hb. simpl. unfold on_image_chunk. rewrite Hb.
  destruct (isLast data); simpl; rewrite ?count_snoc; simpl;
    repeat split; try reflexivity; lia.
Qed.

Lemma image_chunk_ignores_busy_witness :
  let c' :=
    deliver (image_chunk {| chunk := JBinary [x4e]; isLast := true |}) 3
      processing_conn in
  isProcessing (session processing_conn) = true
  /\ isProcessing (session c') = true
  /\ inflight c' = inflight processing_conn
  /\ count is_busy (trace c') = count is_busy (trace processing_conn)
  /\ image (session c') = Some [x89; x50; x4e]
  /\ imageChunks (session c') = [].
Proof.
  destruct (image_chunk_ignores_busy processing_conn
              {| chunk := JBinary [x4e]; isLast := true |} [x4e] 3 eq_refl)
    as (Hp & Hin & Hbusy & Himg & Hch & _).
  repeat split; assumption || reflexivity.
Defined.

(** C10: when [Buffer.from(data.chunk)] throws, the handler emits an
    [error] of type ["image_upload"] with the exception's message and
    leaves the session, and any pipeline in flight, as they were. *)
Theorem image_chunk_error_atomic (c : conn) (data : chunk_data)
    (m : string) (now : Z) :
  Buffer_from (chunk data) = Throw m ->
  let c' := deliver (image_chunk data) now c in
  session c' = session c
  /\ inflight c' = inflight c
  /\ trace c' = trace c ++ [Emit (error "image_upload" m)].
Proof.
  intros Hb. simpl. unfold on_image_chunk. rewrite Hb.
  repeat split; reflexivity.
Qed.

Lemma image_chunk_error_atomic_witness :
  let c' :=
    deliver (image_chunk {| chunk := JNumber 5; isLast := true |}) 3
      processing_conn in
  session c' = session processing_conn
  /\ inflight c' = inflight processing_conn
  /\ trace c'
     = trace processing_conn
       ++ [Emit (error "image_upload"
                     (ERR_INVALID_ARG_TYPE (JNumber 5)))].
Proof.
  apply (image_chunk_error_atomic processing_conn
           {| chunk := JNumber 5; isLast := true |}
           (ERR_INVALID_ARG_TYPE (JNumber 5)) 3).
  reflexivity.
Defined.

(** C9: [clear_image] sets [image] to absent and emits [image_cleared];
    the assembly buffer, the busy flag and the pipeline in flight are
    untouched, and no busy error is emitted, whatever the state. *)
Theorem clear_image_frame (c : conn) (now : Z) :
  let c' := deliver clear_image now c in
  image (session c') = None
  /\ imageChunks (session c') = imageChunks (session c)
  /\ isProcessing (session c') = isProcessing (session c)
  /\ inflight c' = inflight c
  /\ trace c' = trace c ++ [Emit image_cleared]
  /\ count is_busy (trace c') = count is_busy (trace c).
Proof.
  simpl. rewrite count_snoc. simpl. repeat split; try reflexivity. lia.
Qed.

(** [clear_image] followed at once by [text_message]: the inference
    call carries the text turn only. *)
Lemma clear_then_text (c : conn) (message : string) (t1 t2 : Z) :
  isProcessing (session c) = false ->
  trace (deliver (text_message message) t2 (deliver clear_image t1 c))
  = trace c
    ++ [ Emit image_cleared;
         Call (generateText (AiAgent.build_request None message)) ]
  /\ AiAgent.messages (AiAgent.build_request None message)
     = [ {| AiAgent.role := "user";
            AiAgent.content := [AiAgent.text_part message] |} ].
Proof.
  intros Hidle. simpl. unfold on_text_message. simpl. rewrite Hidle. simpl.
  rewrite <- app_assoc. split; reflexivity.
Qed.

(** The text scenario: "What is 2+2?" with no image held, the model
    answering "4.". *)
Example two_plus_two :
  run new_conn
    [ Deliver (text_message "What is 2+2?") 1;
      Resume 0 (generated (fun _ => Ok (one_text_step "4.")));
      Resume 0 (synthesized (tts_world (Some "AAEC") Wav.finish) 9) ]
  = Some
      {| session := new_sessionData;
         inflight := [];
         trace :=
           [ Call (generateText (AiAgent.build_request None "What is 2+2?"));
             Call (generateContent "4.");
             Emit (ai_response "4."
                     (base64_encode (pcm_header ++ [x00; x01; x02])) 9) ] |}.
Proof. reflexivity. Qed.

(** ** Disconnect *)

(** C8, as the code has it: [disconnect] sets the held image to absent
    and empties the assembly buffer, emits nothing, and leaves
    [isProcessing] as it is, so the session is back to its initial
    value exactly when no pipeline is in flight; a new connection
    starts from the initial session, and an input on one socket leaves
    every other socket's connection as it was. *)
Theorem disconnect_clears_image_state (c : conn) (now : Z) :
  let c' := deliver disconnect now c in
  image (session c') = None
  /\ imageChunks (session c') = []
  /\ isProcessing (session c') = isProcessing (session c)
  /\ inflight c' = inflight c
  /\ trace c' = trace c
  /\ (isProcessing (session c) = false -> session c' = new_sessionData)
  /\ (forall (srv : Server.server) (id : string),
        Server.on_connection id srv !! id = Some new_conn)
  /\ (forall (srv srv' : Server.server) (id id' : string) (i : input),
        id <> id' -> Server.step srv id i = Some srv' ->
        srv' !! id' = srv !! id').
Proof.
  simpl. repeat (split; [reflexivity|]). split; [|split].
  - intros Hidle. unfold set_imageChunks, set_image, new_sessionData. simpl.
    now rewrite Hidle.
  - intros srv id. apply lookup_insert_eq.
  - intros srv srv' id id' i Hne. unfold Server.step.
    destruct (srv !! id) as [c0|]; simpl; [|discriminate].
    destruct (step c0 i) as [c1|]; simpl; [|discriminate].
    intros [= <-]. now apply lookup_insert_ne.
Qed.

Lemma disconnect_clears_image_state_witness :
  image (session idle_conn) = Some [x89; x50]
  /\ imageChunks (session idle_conn) = [[x4e]]
  /\ session (deliver disconnect 3 idle_conn) = new_sessionData
  /\ match Server.step two_sockets "a"
             (Deliver (text_message "What is 2+2?") 1) with
     | Some srv' => srv' !! "b" = two_sockets !! "b"
     | None => False
     end.
Proof.
  destruct (disconnect_clears_image_state idle_conn 3)
    as (_ & _ & _ & _ & _ & Hinit & _ & Hiso).
  split; [reflexivity|]. split; [reflexivity|].
  split; [exact (Hinit eq_refl)|].
  destruct (Server.step two_sockets "a" _) as [srv'|] eqn:Hstep.
  - apply (Hiso two_sockets srv' "a" "b" _ ltac:(discriminate) Hstep).
  - vm_compute in Hstep. discriminate Hstep.
Defined.

(** C8 as stated fails on the busy flag: a disconnect that arrives
    while a pipeline is in flight leaves [isProcessing] set. *)
Lemma disconnect_keeps_busy_counterexample :
  isProcessing (session processing_conn) = true
  /\ isProcessing (session (deliver disconnect 3 processing_conn)) = true
  /\ session (deliver disconnect 3 processing_conn) <> new_sessionData.
Proof. repeat split; try reflexivity. discriminate. Qed.

(** ** Transcription polling *)

Lemma in_progress_status (t : transcript) :
  in_progress t = true ->
  (status t =? "completed")%string = false
  /\ (status t =? "error")%string = false.
Proof.
  unfold in_progress. intros H. apply andb_prop in H as [H1 H2].
  split; now apply negb_true_iff.
Qed.

Lemma poll_rounds_run (id : string) (ts : list transcript) (c : conn) :
  inflight c = [await_get id] ->
  forallb in_progress ts = true ->
  exists c',
    run c (poll_rounds ts) = Some c'
    /\ session c' = session c
    /\ inflight c' = [await_get id]
    /\ trace c' = trace c ++ poll_trace id ts.
Proof.
  revert c. induction ts as [|t ts IH]; intros c Hin Hts.
  - exists c. simpl. rewrite app_nil_r. repeat split; auto.
  - simpl in Hts. apply andb_prop in Hts as [Ht Hts].
    destruct (in_progress_status t Ht) as [Hc He].
    set (c1 := {| session := session c; inflight := [await_get id];
                  trace := (trace c ++ [Call (setTimeout poll_interval)])
                           ++ [Call (transcripts_get id)] |}).
    destruct (IH c1 eq_refl Hts) as (c' & Hrun & Hs & Hin' & Htr).
    exists c'. unfold poll_rounds in *. simpl.
    rewrite Hin. simpl. rewrite Hc, He. simpl. rewrite Hin. simpl.
    assert (settle 0 (Some (await_get id))
              (await (transcripts_get id)
                 (settle 0 (Some (await_timer id))
                    (await (setTimeout poll_interval) c))) = c1) as ->.
    { unfold c1, settle, await, act. simpl. now rewrite Hin. }
    rewrite Hrun. split; [reflexivity|].
    split; [exact Hs|]. split; [exact Hin'|].
    rewrite Htr. unfold c1, poll_trace. simpl.
    now rewrite <- !app_assoc.
Qed.

(** The last poll: the job is done and the handler moves on to the
    inference call. *)
Lemma poll_completed (c : conn) (id : string) (ts : list transcript)
    (final : transcript) :
  inflight c = [await_get id] ->
  forallb in_progress ts = true ->
  status final = "completed" ->
  exists c',
    run c (poll_rounds ts ++ [Resume 0 (got (Ok final))]) = Some c'
    /\ trace c'
       = trace c ++ poll_trace id ts
         ++ [Call (generateText
                     (AiAgent.build_request (image (session c))
                        (text_or_empty (text final))))]
    /\ inflight c'
       = [await_AiProcessing full_audio (image (session c))
            (text_or_empty (text final))]
    /\ session c' = session c.
Proof.
  intros Hin Hts Hst.
  destruct (poll_rounds_run id ts c Hin Hts) as (c1 & Hrun & Hs & Hin1 & Htr).
  eexists. rewrite run_app, Hrun. simpl. rewrite Hin1. simpl.
  rewrite Hst. simpl. split; [reflexivity|]. simpl.
  rewrite ?Hin1, Htr, Hs, <- app_assoc. repeat split; reflexivity.
Qed.

(** C4: a parked [audio_full] handler polls the job, sleeping 3000 ms
    after every answer whose status is neither ["completed"] nor
    ["error"]; on ["completed"] it goes on to the inference call with
    the transcript's text, or the empty string when there is none; on
    ["error"] it emits an [error] of type ["full_audio"] carrying the
    vendor's message, ends, and leaves [isProcessing] false. *)
Theorem transcription_poll_contract (c : conn) (id : string)
    (ts : list transcript) (final : transcript) :
  inflight c = [await_get id] ->
  forallb in_progress ts = true ->
  (status final = "completed" ->
   exists c',
     run c (poll_rounds ts ++ [Resume 0 (got (Ok final))]) = Some c'
     /\ trace c'
        = trace c ++ poll_trace id ts
          ++ [Call (generateText
                      (AiAgent.build_request (image (session c))
                         (match text final with
                          | Some s => s
                          | None => ""
                          end)))]
     /\ inflight c'
        = [await_AiProcessing full_audio (image (session c))
             (match text final with Some s => s | None => "" end)]
     /\ session c' = session c)
  /\ (status final = "error" ->
      exists c',
        run c (poll_rounds ts ++ [Resume 0 (got (Ok final))]) = Some c'
        /\ trace c'
           = trace c ++ poll_trace id ts
             ++ [Emit (error "full_audio"
                         (match error_message final with
                          | Some m => m
                          | None => ""
                          end))]
        /\ inflight c' = []
        /\ isProcessing (session c') = false
        /\ image (session c') = image (session c)
        /\ imageChunks (session c') = imageChunks (session c)).
Proof.
  intros Hin Hts.
  split; intros Hst.
  - exact (poll_completed c id ts final Hin Hts Hst).
  - destruct (poll_rounds_run id ts c Hin Hts)
      as (c1 & Hrun & Hs & Hin1 & Htr).
    eexists. rewrite run_app, Hrun. simpl. rewrite Hin1. simpl.
    rewrite Hst. simpl. split; [reflexivity|]. simpl.
    rewrite ?Hin1, Htr, Hs, <- app_assoc. repeat split; reflexivity.
Qed.

Lemma transcription_poll_contract_witness :
  isProcessing (session polling_conn) = true
  /\ exists c',
       run polling_conn
         (poll_rounds [queued; processing] ++ [Resume 0 (got (Ok failed))])
       = Some c'
       /\ trace c'
          = trace polling_conn
            ++ poll_trace "job-1" [queued; processing]
            ++ [Emit (error "full_audio" "Audio file is too short")]
       /\ inflight c' = []
       /\ isProcessing (session c') = false.
Proof.
  split; [reflexivity|].
  destruct (proj2 (transcription_poll_contract polling_conn "job-1"
                     [queued; processing] failed eq_refl eq_refl) eq_refl)
    as (c' & Hrun & Htr & Hin & Hp & _).
  exists c'. repeat split; assumption.
Defined.

(** ** Single-flight admission *)

Ltac flight_unfold :=
  unfold flight, catch, finally, emit, await, act, park, settle,
    with_session, call_AiProcessing in *;
  simpl in *; rewrite ?count_snoc in *; simpl in *.







(** A reply changes neither the image state nor the set of parked
    handlers of the connection it is applied to, and touches the busy
    flag only when the handler ends. *)
Lemma resume_frame (p : pending) (r : reply) (c c1 : conn)
    (next : option pending) :
  resume p r c = Some (c1, next) ->
  inflight c1 = inflight c
  /\ image (session c1) = image (session c)
  /\ imageChunks (session c1) = imageChunks (session c)
  /\ match next with
     | Some _ => isProcessing (session c1) = isProcessing (session c)
     | None => isProcessing (session c1) = false
     end.
Proof.
  intros Hres.
  destruct p as [| |id|id|h img message|h aiResponseText];
    destruct r as [[url|m]|[jid|m]|[t|m]| |remote|w now];
    simpl in Hres; try discriminate Hres;
    try (injection Hres as <- <-; repeat split; reflexivity).
  - destruct (status t =? "completed")%string;
      [|destruct (status t =? "error")%string];
      injection Hres as <- <-; repeat split; reflexivity.
  - unfold after_AiProcessing in Hres.
    destruct (AiAgent.AiProcessing remote img message);
      injection Hres as <- <-; repeat split; reflexivity.
  - unfold after_textToAudio in Hres.
    destruct (Tts.textToAudio w aiResponseText);
      injection Hres as <- <-; repeat split; reflexivity.
Qed.

(** At most one pipeline is in flight, and busy is set exactly while it
    is: the invariant holds after every input, triggering or not. *)
Lemma single_flight_step (c c' : conn) (i : input) :
  single_flight c -> step c i = Some c' -> single_flight c'.
Proof.
  intros Hsf Hstep. destruct i as [ev now|k r].
  - injection Hstep as <-.
    destruct ev as [v|data|message| |]; simpl.
    + unfold on_audio_full.
      destruct Hsf as [[HP Hin]|[HP Hin]]; rewrite HP.
      * left. split; assumption.
      * destruct (Buffer_from v); simpl; [left|right]; simpl;
          rewrite ?Hin; split; reflexivity.
    + unfold on_image_chunk.
      destruct (Buffer_from (chunk data)); [destruct (isLast data)|];
        exact Hsf.
    + unfold on_text_message.
      destruct Hsf as [[HP Hin]|[HP Hin]]; rewrite HP.
      * left. split; assumption.
      * left. simpl. rewrite Hin. split; reflexivity.
    + exact Hsf.
    + exact Hsf.
  - simpl in Hstep.
    destruct (inflight c !! k) as [p|] eqn:Hk; [|discriminate Hstep].
    simpl in Hstep.
    destruct (resume p r c) as [[c1 next]|] eqn:Hres; [|discriminate Hstep].
    injection Hstep as <-.
    destruct (resume_frame p r c c1 next Hres) as (Hin1 & _ & _ & Hbusy).
    destruct Hsf as [[HP Hin]|[HP Hin]]; [|rewrite Hin in Hk; discriminate Hk].
    destruct (inflight c) as [|q [|q' rest]] eqn:Hc; try discriminate Hin.
    destruct k as [|k]; [|discriminate Hk].
    destruct next as [p'|]; unfold single_flight; simpl; rewrite Hin1.
    + left. split; [congruence | reflexivity].
    + right. split; [exact Hbusy | reflexivity].
Qed.

Lemma single_flight_reachable (ins : list input) (c : conn) :
  run new_conn ins = Some c -> single_flight c.
Proof.
  assert (forall c0, single_flight c0 -> run c0 ins = Some c -> single_flight c)
    as Hgen.
  { induction ins as [|i ins IH]; intros c0 Hsf Hrun.
    - injection Hrun as <-. exact Hsf.
    - simpl in Hrun.
      destruct (step c0 i) as [c1|] eqn:Hstep; [|discriminate Hrun].
      exact (IH c1 (single_flight_step c0 c1 i Hsf Hstep) Hrun). }
  apply Hgen. right. split; reflexivity.
Qed.


(** A text pipeline is over after two replies at most, whatever they
    are. *)
Lemma text_pipeline_completes (c : conn) (message : string) (t now : Z)
    (remote : AiAgent.request -> result AiAgent.response) (w : Tts.world) :
  isProcessing (session c) = false ->
  inflight c = [] ->
  exists c1,
    run c [Deliver (text_message message) t; Resume 0 (generated remote)]
    = Some c1
    /\ match AiAgent.AiProcessing remote (image (session c)) message with
       | Ok _ =>
           exists c2,
             run c1 [Resume 0 (synthesized w now)] = Some c2
             /\ inflight c2 = []
             /\ isProcessing (session c2) = false
             /\ count is_outcome (trace c2)
                = (count is_outcome (trace c) + 1)%nat
       | Throw _ =>
           inflight c1 = []
           /\ isProcessing (session c1) = false
           /\ count is_outcome (trace c1)
              = (count is_outcome (trace c) + 1)%nat
       end.
Proof.
  intros Hidle Hnone. simpl. unfold on_text_message. rewrite Hidle.
  simpl. rewrite Hnone. simpl. unfold after_AiProcessing.
  destruct (AiAgent.AiProcessing remote (image (session c)) message)
    as [aiText|m]; simpl.
  - eexists. split; [reflexivity|]. simpl. rewrite Hnone. simpl.
    unfold after_textToAudio.
    destruct (Tts.textToAudio w aiText); simpl; eexists;
      (split; [reflexivity|]); flight_unfold; rewrite Hnone;
      repeat split; lia.
  - eexists. split; [reflexivity|]. flight_unfold. rewrite Hnone.
    repeat split; lia.
Qed.

(** An audio pipeline whose job completes after any number of polls,
    and whose inference and synthesis succeed, ends with one
    [ai_response]. *)
Lemma audio_pipeline_completes (c : conn) (audio : bytes) (t now : Z)
    (url id : string) (ts : list transcript) (final : transcript)
    (remote : AiAgent.request -> result AiAgent.response) (w : Tts.world)
    (aiText : string) (wave : bytes) :
  isProcessing (session c) = false ->
  inflight c = [] ->
  forallb in_progress ts = true ->
  status final = "completed" ->
  AiAgent.AiProcessing remote (image (session c))
    (text_or_empty (text final)) = Ok aiText ->
  Tts.textToAudio w aiText = Ok wave ->
  exists c',
    run c
      ([ Deliver (audio_full (JBinary audio)) t;
         Resume 0 (uploaded (Ok url)); Resume 0 (created (Ok id)) ]
       ++ (poll_rounds ts ++ [Resume 0 (got (Ok final))])
       ++ [ Resume 0 (generated remote); Resume 0 (synthesized w now) ])
    = Some c'
    /\ inflight c' = []
    /\ isProcessing (session c') = false
    /\ exists before,
         trace c'
         = before ++ [Emit (ai_response aiText (base64_encode wave) now)].
Proof.
  intros Hidle Hnone Hts Hst Hai Htts.
  rewrite run_app.
  assert (exists c1,
             run c [ Deliver (audio_full (JBinary audio)) t;
                     Resume 0 (uploaded (Ok url));
                     Resume 0 (created (Ok id)) ] = Some c1
             /\ inflight c1 = [await_get id]
             /\ image (session c1) = image (session c))
    as (c1 & -> & Hin1 & Himg1).
  { simpl. unfold on_audio_full. rewrite Hidle. simpl.
    repeat (rewrite Hnone; simpl).
    eexists. split; [reflexivity|]. simpl. rewrite Hnone.
    split; reflexivity. }
  simpl mbind. rewrite run_app.
  destruct (poll_completed c1 id ts final Hin1 Hts Hst)
    as (c2 & -> & Htr2 & Hin2 & Hs2).
  simpl. rewrite Hin2. simpl. rewrite Himg1, Hai. simpl.
  rewrite Hin2. simpl. rewrite Htts. simpl.
  eexists. split; [reflexivity|]. simpl. rewrite Hin2.
  repeat split. eexists. reflexivity.
Qed.


End Session.

(** * Beyond the claims: codecs *)

Section Codec.
Import Cover.
Local Open Scope list_scope.

Lemma Z_of_byte_range (x : byte) : 0 <= Z_of_byte x < 256.
Proof.
  unfold Z_of_byte. pose proof (Byte.to_N_bounded x). lia.
Qed.

Lemma byte_of_Z_of_byte (x : byte) : byte_of_Z (Z_of_byte x) = x.
Proof.
  unfold byte_of_Z. pose proof (Z_of_byte_range x) as Hr.
  rewrite Z.mod_small by exact Hr. unfold Z_of_byte.
  rewrite N2Z.id, Byte.of_to_N. reflexivity.
Qed.

Lemma byte_of_Z_mod (z : Z) : byte_of_Z (z mod 256) = byte_of_Z z.
Proof. unfold byte_of_Z. now rewrite Z.mod_mod by lia. Qed.

Lemma Z_of_byte_of_Z (z : Z) : Z_of_byte (byte_of_Z z) = z mod 256.
Proof.
  unfold byte_of_Z, Z_of_byte.
  pose proof (Z.mod_pos_bound z 256 ltac:(lia)) as Hr.
  destruct (Byte.of_N (Z.to_N (z mod 256))) as [b|] eqn:Hb.
  - apply Byte.to_of_N in Hb. lia.
  - apply Byte.of_N_None_iff in Hb. lia.
Qed.

Lemma byte_of_Z_eq (z : Z) (x : byte) :
  z mod 256 = Z_of_byte x -> byte_of_Z z = x.
Proof.
  intros H. rewrite <- byte_of_Z_mod, H. apply byte_of_Z_of_byte.
Qed.

Lemma base64_digits_ok : forallb digit_ok (seq 0 64) = true.
Proof. vm_compute. reflexivity. Qed.

Lemma unbase64_char (v : Z) :
  0 <= v < 64 ->
  Ascii.eqb (base64_char v) "="%char = false
  /\ unbase64 (base64_char v) = Some v.
Proof.
  intros Hv.
  pose proof (proj1 (forallb_forall digit_ok (seq 0 64)) base64_digits_ok
                (Z.to_nat v)) as H.
  assert (In (Z.to_nat v) (seq 0 64)) as Hin by (apply in_seq; lia).
  specialize (H Hin). unfold digit_ok in H.
  rewrite Z2Nat.id in H by lia.
  apply andb_prop in H as [H1 H2]. split.
  - now apply negb_true_iff.
  - destruct (unbase64 (base64_char v)) as [u|]; [|discriminate].
    apply Z.eqb_eq in H2. now subst.
Qed.

Lemma sextets_digit (v : Z) (rest : string) :
  0 <= v < 64 ->
  base64_sextets (String (base64_char v) rest) = v :: base64_sextets rest.
Proof.
  intros Hv. destruct (unbase64_char v Hv) as [H1 H2].
  simpl. now rewrite H1, H2.
Qed.

Ltac byte_arith :=
  apply byte_of_Z_eq; Z.div_mod_to_equations; lia.

Lemma base64_roundtrip_aux (b : bytes) :
  Buffer_from_base64 (base64_encode b) = b
  /\ (forall x, Buffer_from_base64 (base64_encode (x :: b)) = x :: b)
  /\ (forall x y, Buffer_from_base64 (base64_encode (x :: y :: b)) = x :: y :: b).
Proof.
  induction b as [|z b (IH0 & IH1 & IH2)].
  - split; [reflexivity|]. split.
    + intros x. pose proof (Z_of_byte_range x) as Hx.
      unfold Buffer_from_base64. simpl base64_encode.
      rewrite !sextets_digit by (Z.div_mod_to_equations; lia).
      simpl. f_equal. byte_arith.
    + intros x y. pose proof (Z_of_byte_range x) as Hx.
      pose proof (Z_of_byte_range y) as Hy.
      unfold Buffer_from_base64. simpl base64_encode.
      rewrite !sextets_digit by (Z.div_mod_to_equations; lia).
      simpl. f_equal; [|f_equal]; byte_arith.
  - split; [apply IH1|]. split; [intros x; apply IH2|].
    intros x y. pose proof (Z_of_byte_range x) as Hx.
    pose proof (Z_of_byte_range y) as Hy. pose proof (Z_of_byte_range z) as Hz.
    unfold Buffer_from_base64 in *.
    change (base64_encode (x :: y :: z :: b))
      with (let n := Z_of_byte x * 65536 + Z_of_byte y * 256 + Z_of_byte z in
            String (base64_char (n / 262144))
              (String (base64_char ((n / 4096) mod 64))
                 (String (base64_char ((n / 64) mod 64))
                    (String (base64_char (n mod 64)) (base64_encode b))))).
    cbv zeta.
    rewrite !sextets_digit by (Z.div_mod_to_equations; lia).
    cbn [base64_pack]. rewrite IH0.
    f_equal; [|f_equal; [|f_equal]]; byte_arith.
Qed.

(** Decoding what [toString("base64")] produced gives the buffer back. *)
Lemma base64_roundtrip (b : bytes) :
  Buffer_from_base64 (base64_encode b) = b.
Proof. apply base64_roundtrip_aux. Qed.

(** X1: the image turn carries the held image intact: its data URL is
    the prefix "data:image/png;base64," followed by a payload whose
    base64 decoding is exactly the image, whatever the bytes are. *)
Theorem image_turn_carries_image (img : bytes) (message : string) :
  exists payload,
    AiAgent.build_messages (Some img) message
    = [ {| AiAgent.role := "user";
           AiAgent.content := [AiAgent.text_part message] |};
        {| AiAgent.role := "user";
           AiAgent.content :=
             [ AiAgent.text_part AiAgent.instruction;
               AiAgent.image_part ("data:image/png;base64," ++ payload)%string ] |} ]
    /\ Buffer_from_base64 payload = img.
Proof.
  exists (base64_encode img). split; [reflexivity | apply base64_roundtrip].
Qed.

End Codec.

(** * Beyond the claims: the session state machine *)

Section Coverage.
Import Gateway Obs Scenario Cover.
Local Open Scope list_scope.

Lemma count_snoc' (f : action -> bool) (t : list action) (a : action) :
  count f (t ++ [a]) = (count f t + if f a then 1 else 0)%nat.
Proof.
  unfold count. rewrite List.filter_app, length_app. simpl.
  destruct (f a); reflexivity.
Qed.

Ltac handlers_unfold :=
  unfold catch, finally, emit, await, act, park, settle, with_session,
    call_AiProcessing, after_AiProcessing, after_textToAudio in *;
  simpl in *; rewrite ?count_snoc' in *; simpl in *.

(** What a reply adds to the trace: no busy error, and one outcome
    exactly when the handler ends. *)
Lemma resume_accounting (p : pending) (r : reply) (c c1 : conn)
    (next : option pending) :
  resume p r c = Some (c1, next) ->
  count is_busy (trace c1) = count is_busy (trace c)
  /\ count is_outcome (trace c1)
     = (count is_outcome (trace c)
        + match next with Some _ => 0 | None => 1 end)%nat.
Proof.
  intros Hres.
  destruct p as [| |id|id|h img message|h aiResponseText];
    destruct r as [[url|m]|[jid|m]|[t|m]| |remote|w now];
    simpl in Hres; try discriminate Hres;
    try (injection Hres as <- <-; handlers_unfold; split; lia).
  - destruct (status t =? "completed")%string;
      [|destruct (status t =? "error")%string];
      injection Hres as <- <-; handlers_unfold; split; lia.
  - unfold after_AiProcessing in Hres.
    destruct (AiAgent.AiProcessing remote img message); destruct h;
      injection Hres as <- <-; handlers_unfold; split; lia.
  - unfold after_textToAudio in Hres.
    destruct (Tts.textToAudio w aiResponseText); destruct h;
      injection Hres as <- <-; handlers_unfold; split; lia.
Qed.

Lemma step_accounting (c c' : conn) (i : input) :
  step c i = Some c' ->
  (count is_outcome (trace c') + count is_busy (trace c')
   + length (inflight c')
   = count is_outcome (trace c) + count is_busy (trace c)
     + length (inflight c) + if triggering i then 1 else 0)%nat.
Proof.
  intros Hstep. destruct i as [ev now|k r].
  - injection Hstep as <-.
    destruct ev as [v|data|message| |]; simpl.
    + unfold on_audio_full. destruct (isProcessing (session c));
        [|destruct (Buffer_from v)]; handlers_unfold;
        rewrite ?length_app; simpl; lia.
    + unfold on_image_chunk.
      destruct (Buffer_from (chunk data)); [destruct (isLast data)|];
        handlers_unfold; lia.
    + unfold on_text_message. destruct (isProcessing (session c));
        handlers_unfold; rewrite ?length_app; simpl; lia.
    + handlers_unfold. lia.
    + handlers_unfold. lia.
  - simpl in Hstep.
    destruct (inflight c !! k) as [p|] eqn:Hk; [|discriminate Hstep].
    simpl in Hstep.
    destruct (resume p r c) as [[c1 next]|] eqn:Hres; [|discriminate Hstep].
    injection Hstep as <-.
    destruct (resume_accounting p r c c1 next Hres) as [HB HO].
    destruct (resume_frame p r c c1 next Hres) as (Hin & _).
    pose proof (lookup_lt_Some _ _ _ Hk) as Hlt.
    destruct next as [p'|]; simpl; rewrite Hin.
    + rewrite length_insert. lia.
    + rewrite length_delete by eauto. lia.
Qed.

Lemma run_accounting (ins : list input) (c c' : conn) :
  run c ins = Some c' ->
  (count is_outcome (trace c') + count is_busy (trace c')
   + length (inflight c')
   = count is_outcome (trace c) + count is_busy (trace c)
     + length (inflight c) + requests ins)%nat.
Proof.
  revert c. induction ins as [|i ins IH]; intros c Hrun.
  - injection Hrun as <-. unfold requests. simpl. lia.
  - simpl in Hrun.
    destruct (step c i) as [c1|] eqn:Hstep; [|discriminate Hrun].
    specialize (IH c1 Hrun). pose proof (step_accounting c c1 i Hstep).
    unfold requests in *. simpl. destruct (triggering i); simpl; lia.
Qed.

(** X2: every request gets exactly one answer.  After any sequence of
    events and replies on a new connection, the pipeline-triggering
    events delivered so far are accounted for one by one: each was
    rejected with a busy error, or has produced its [ai_response] or
    typed error, or is the pipeline still in flight; none is dropped,
    queued or answered twice.  At most one pipeline is in flight, and
    the busy flag is set exactly while one is. *)
Theorem every_request_answered_once (ins : list input) (c : conn) :
  run new_conn ins = Some c ->
  (count is_outcome (trace c) + count is_busy (trace c)
   + length (inflight c) = requests ins)%nat
  /\ (length (inflight c) <= 1)%nat
  /\ (isProcessing (session c) = true <-> inflight c <> []).
Proof.
  intros Hrun. split.
  - pose proof (run_accounting ins new_conn c Hrun) as H. simpl in H.
    change (count is_outcome []) with 0%nat in H.
    change (count is_busy []) with 0%nat in H. lia.
  - destruct (single_flight_reachable ins c Hrun) as [[HP H]|[HP H]];
      rewrite H, HP; simpl; split; try lia.
    + split; [intros _; destruct (inflight c); [discriminate H | discriminate]
             | reflexivity].
    + split; [discriminate | intros Hn; now destruct Hn].
Qed.

Lemma every_request_answered_once_witness :
  (count is_outcome (trace answered_conn)
   + count is_busy (trace answered_conn)
   + length (inflight answered_conn) = 2)%nat.
Proof.
  exact (proj1 (every_request_answered_once back_to_back answered_conn
                  eq_refl)).
Defined.

(** X3: while a pipeline is in flight, pipeline-triggering events are
    turned away and leave nothing behind: any number of them changes
    neither the session nor the parked handler and makes no remote call;
    the only effect is one busy error, with the fixed message, per
    event. *)
Theorem busy_rejections_leave_no_trace (c : conn) (evs : list (inbound * Z)) :
  isProcessing (session c) = true ->
  forallb (fun e => triggers (fst e)) evs = true ->
  exists c',
    run c (deliver_all evs) = Some c'
    /\ session c' = session c
    /\ inflight c' = inflight c
    /\ trace c' = trace c ++ repeat busy_error (length evs).
Proof.
  revert c. induction evs as [|[ev t] evs IH]; intros c HP Hev.
  - exists c. simpl. rewrite app_nil_r. repeat split; reflexivity.
  - simpl in Hev. apply andb_prop in Hev as [He Hev].
    assert (deliver ev t c = emit (error "busy" busy_message) c) as Hd.
    { destruct ev as [v|d|m| |]; try discriminate He; simpl;
        [unfold on_audio_full | unfold on_text_message]; now rewrite HP. }
    destruct (IH (emit (error "busy" busy_message) c) HP Hev)
      as (c' & Hrun & Hs & Hin & Htr).
    exists c'. simpl. rewrite Hd, Hrun. split; [reflexivity|].
    split; [exact Hs|]. split; [exact Hin|].
    rewrite Htr. simpl. now rewrite <- app_assoc.
Qed.

Lemma busy_rejections_leave_no_trace_witness :
  exists c',
    run processing_conn
      (deliver_all [ (audio_full (JBinary [x01]), 3);
                     (text_message "again", 4) ]) = Some c'
    /\ session c' = session processing_conn
    /\ inflight c' = inflight processing_conn
    /\ trace c' = trace processing_conn ++ [busy_error; busy_error].
Proof.
  exact (busy_rejections_leave_no_trace processing_conn
           [ (audio_full (JBinary [x01]), 3); (text_message "again", 4) ]
           eq_refl eq_refl).
Defined.

Lemma count_app (f : action -> bool) (t1 t2 : list action) :
  count f (t1 ++ t2) = (count f t1 + count f t2)%nat.
Proof. unfold count. now rewrite List.filter_app, length_app. Qed.

Lemma poll_trace_counts (id : string) (ts : list transcript) :
  count is_poll (poll_trace id ts) = length ts
  /\ count is_outcome (poll_trace id ts) = 0%nat
  /\ count is_inference (poll_trace id ts) = 0%nat.
Proof.
  induction ts as [|t ts (IH1 & IH2 & IH3)]; [repeat split; reflexivity|].
  unfold poll_trace in *. simpl. unfold count in *. simpl.
  rewrite IH1, IH2, IH3. repeat split; reflexivity.
Qed.

(** X4: the poll loop has no bound.  However many times the job is
    reported as neither completed nor failed, the [audio_full] handler
    polls once more after each answer: it stays parked on the same job,
    the session is as it was, and what the rounds add to the trace is
    exactly, for each answer, the 3000 ms timer and the next poll; no
    event is emitted to the client. *)
Theorem polling_has_no_bound (c : conn) (id : string) (ts : list transcript) :
  inflight c = [await_get id] ->
  forallb in_progress ts = true ->
  exists c',
    run c (poll_rounds ts) = Some c'
    /\ inflight c' = [await_get id]
    /\ session c' = session c
    /\ count is_poll (trace c') = (count is_poll (trace c) + length ts)%nat
    /\ count is_outcome (trace c') = count is_outcome (trace c)
    /\ count is_inference (trace c') = count is_inference (trace c)
    /\ trace c' = trace c ++ poll_trace id ts
    /\ Forall (fun a => a = Call (setTimeout 3000)
                        \/ a = Call (transcripts_get id))
              (poll_trace id ts)
    /\ (forall e, ~ In (Emit e) (poll_trace id ts)).
Proof.
  intros Hin Hts.
  destruct (poll_rounds_run id ts c Hin Hts) as (c' & Hrun & Hs & Hin' & Htr).
  destruct (poll_trace_counts id ts) as (H1 & H2 & H3).
  assert (Forall (fun a => a = Call (setTimeout 3000)
                           \/ a = Call (transcripts_get id))
            (poll_trace id ts)) as Hcalls.
  { unfold poll_trace. clear. induction ts as [|t ts IH]; simpl.
    - constructor.
    - constructor; [left; reflexivity|].
      constructor; [right; reflexivity | exact IH]. }
  exists c'. rewrite Htr, !count_app, H1, H2, H3.
  repeat split; try assumption; try lia.
  intros e He. rewrite List.Forall_forall in Hcalls.
  destruct (Hcalls _ He) as [H|H]; discriminate H.
Qed.

Lemma polling_has_no_bound_witness :
  exists c',
    run polling_conn (poll_rounds (repeat queued 2)) = Some c'
    /\ inflight c' = [await_get "job-1"]
    /\ isProcessing (session c') = true
    /\ count is_outcome (trace c') = 0%nat
    /\ trace c'
       = trace polling_conn
         ++ [ Call (setTimeout 3000); Call (transcripts_get "job-1");
              Call (setTimeout 3000); Call (transcripts_get "job-1") ].
Proof.
  destruct (polling_has_no_bound polling_conn "job-1" (repeat queued 2)
              eq_refl eq_refl)
    as (c' & Hrun & Hin & Hs & _ & HO & _ & Htr & _).
  exists c'. rewrite Hs. repeat split; assumption.
Defined.

(** X5: a failure before the inference stage ends the audio pipeline at
    once.  When the upload, the creation of the job or a poll is
    rejected, the handler emits one [error] of type ["full_audio"] with
    the rejection's message, releases the busy flag and ends; no
    inference or synthesis call is made, and the image state is as it
    was. *)
Theorem transcription_failure_short_circuits (c : conn) (audio : bytes)
    (t : Z) (url id m : string) :
  isProcessing (session c) = false ->
  inflight c = [] ->
  let ended (c' : conn) (calls : list action) :=
    trace c' = trace c ++ calls ++ [Emit (error "full_audio" m)]
    /\ inflight c' = []
    /\ isProcessing (session c') = false
    /\ image (session c') = image (session c)
    /\ imageChunks (session c') = imageChunks (session c) in
  (exists c',
      run c [ Deliver (audio_full (JBinary audio)) t;
              Resume 0 (uploaded (Throw m)) ] = Some c'
      /\ ended c' [Call (files_upload audio)])
  /\ (exists c',
         run c [ Deliver (audio_full (JBinary audio)) t;
                 Resume 0 (uploaded (Ok url));
                 Resume 0 (created (Throw m)) ] = Some c'
         /\ ended c' [ Call (files_upload audio);
                       Call (transcripts_create url) ])
  /\ (exists c',
         run c [ Deliver (audio_full (JBinary audio)) t;
                 Resume 0 (uploaded (Ok url));
                 Resume 0 (created (Ok id));
                 Resume 0 (got (Throw m)) ] = Some c'
         /\ ended c' [ Call (files_upload audio);
                       Call (transcripts_create url);
                       Call (transcripts_get id) ]).
Proof.
  intros Hidle Hnone ended. unfold ended.
  split; [|split]; simpl; unfold on_audio_full; rewrite Hidle; simpl;
    repeat (rewrite Hnone; simpl);
    eexists; (split; [reflexivity|]); simpl; rewrite ?Hnone;
    rewrite <- ?app_assoc; repeat split; reflexivity.
Qed.

Lemma transcription_failure_short_circuits_witness :
  exists c',
    run new_conn [ Deliver (audio_full (JBinary [x01; x02])) 1;
                   Resume 0 (uploaded (Throw "socket hang up")) ] = Some c'
    /\ trace c'
       = [ Call (files_upload [x01; x02]);
           Emit (error "full_audio" "socket hang up") ]
    /\ isProcessing (session c') = false.
Proof.
  destruct (proj1 (transcription_failure_short_circuits new_conn [x01; x02]
                     1 "" "" "socket hang up" eq_refl eq_refl))
    as (c' & Hrun & Htr & _ & HP & _).
  exists c'. repeat split; assumption.
Defined.

(** X6: the audio pipeline reads the image when the transcript is ready,
    not when the audio arrived: an image whose upload completes while
    the job is still being transcribed is the one sent with the
    inference request. *)
Theorem audio_pipeline_uses_latest_image (c : conn) (audio img : bytes)
    (t t' : Z) (url id : string) (final : transcript) :
  isProcessing (session c) = false ->
  inflight c = [] ->
  status final = "completed" ->
  let whole := Buffer_concat (imageChunks (session c) ++ [img]) in
  let transcript := match text final with Some s => s | None => "" end in
  exists c' before,
    run c [ Deliver (audio_full (JBinary audio)) t;
            Resume 0 (uploaded (Ok url));
            Resume 0 (created (Ok id));
            Deliver (image_chunk {| chunk := JBinary img; isLast := true |}) t';
            Resume 0 (got (Ok final)) ] = Some c'
    /\ trace c'
       = before
         ++ [Call (generateText (AiAgent.build_request (Some whole) transcript))]
    /\ inflight c' = [await_AiProcessing full_audio (Some whole) transcript].
Proof.
  intros Hidle Hnone Hst whole transcript.
  simpl. unfold on_audio_full. rewrite Hidle. simpl.
  repeat (rewrite Hnone; simpl). rewrite Hst. simpl.
  eexists. eexists. split; [reflexivity|]. simpl. rewrite Hnone.
  split; reflexivity.
Qed.

Lemma audio_pipeline_uses_latest_image_witness :
  exists c' before,
    run new_conn
      [ Deliver (audio_full (JBinary [x01; x02])) 1;
        Resume 0 (uploaded (Ok "https://cdn/upload/1"));
        Resume 0 (created (Ok "job-1"));
        Deliver (image_chunk {| chunk := JBinary [x89; x50];
                                isLast := true |}) 2;
        Resume 0 (got (Ok (completed "what is this"))) ] = Some c'
    /\ trace c'
       = before
         ++ [Call (generateText
                     (AiAgent.build_request (Some [x89; x50]) "what is this"))]
    /\ inflight c'
       = [await_AiProcessing full_audio (Some [x89; x50]) "what is this"].
Proof.
  exact (audio_pipeline_uses_latest_image new_conn [x01; x02] [x89; x50] 1 2
           "https://cdn/upload/1" "job-1" (completed "what is this")
           eq_refl eq_refl eq_refl).
Defined.

Lemma quiet_deliver_frame (ev : inbound) (now : Z) (c : conn) :
  triggers ev = false ->
  inflight (deliver ev now c) = inflight c
  /\ isProcessing (session (deliver ev now c)) = isProcessing (session c)
  /\ exists added, trace (deliver ev now c) = trace c ++ added.
Proof.
  intros Hq. destruct ev as [v|data|message| |]; try discriminate Hq; simpl.
  - unfold on_image_chunk.
    destruct (Buffer_from (chunk data)); [destruct (isLast data)|]; simpl;
      repeat split; try reflexivity;
      try (eexists; reflexivity); exists []; now rewrite app_nil_r.
  - repeat split; try reflexivity. eexists; reflexivity.
  - repeat split; try reflexivity. exists []. now rewrite app_nil_r.
Qed.

(** X7: a text pipeline keeps the image it was admitted with.  The
    inference request is sent at admission with the image held at that
    moment; clearing the image, uploading another one or disconnecting
    while the request is in flight changes neither the request that was
    sent nor what the parked handler will compute its answer from. *)
Theorem text_pipeline_keeps_its_image (c : conn) (message : string) (t : Z)
    (evs : list (inbound * Z)) :
  isProcessing (session c) = false ->
  inflight c = [] ->
  forallb (fun e => negb (triggers (fst e))) evs = true ->
  exists c',
    run c (Deliver (text_message message) t :: deliver_all evs) = Some c'
    /\ inflight c'
       = [await_AiProcessing text_processing (image (session c)) message]
    /\ trace c' !! length (trace c)
       = Some (Call (generateText
                       (AiAgent.build_request (image (session c)) message))).
Proof.
  intros Hidle Hnone Hq. simpl. unfold on_text_message. rewrite Hidle. simpl.
  set (c0 := park _ _).
  assert (inflight c0
          = [await_AiProcessing text_processing (image (session c)) message])
    as Hin by (unfold c0; simpl; now rewrite Hnone).
  assert (trace c0 !! length (trace c)
          = Some (Call (generateText
                          (AiAgent.build_request (image (session c)) message))))
    as Htr by (unfold c0; simpl; apply list_lookup_middle; reflexivity).
  clearbody c0. revert c0 Hin Htr.
  induction evs as [|[ev t'] evs IH]; intros c0 Hin Htr.
  - exists c0. repeat split; assumption.
  - simpl in Hq. apply andb_prop in Hq as [He Hq].
    apply negb_true_iff in He.
    destruct (quiet_deliver_frame ev t' c0 He) as (Hin' & _ & added & Hadd).
    simpl. apply (IH Hq).
    + now rewrite Hin'.
    + rewrite Hadd. rewrite lookup_app_l; [exact Htr|].
      apply lookup_lt_Some in Htr. exact Htr.
Qed.

Lemma text_pipeline_keeps_its_image_witness :
  exists c',
    run idle_conn
      (Deliver (text_message "What is this?") 3
       :: deliver_all [ (clear_image, 4); (disconnect, 5) ]) = Some c'
    /\ image (session c') = None
    /\ inflight c'
       = [await_AiProcessing text_processing (Some [x89; x50])
            "What is this?"].
Proof.
  destruct (text_pipeline_keeps_its_image idle_conn "What is this?" 3
              [ (clear_image, 4); (disconnect, 5) ] eq_refl eq_refl eq_refl)
    as (c' & Hrun & Hin & _).
  exists c'. split; [exact Hrun|]. split; [|exact Hin].
  vm_compute in Hrun. injection Hrun as <-. reflexivity.
Defined.

Lemma run_deliveries_total (c : conn) (evs : list (inbound * Z)) :
  exists c', run c (deliver_all evs) = Some c'.
Proof.
  revert c. induction evs as [|[ev t] evs IH]; intros c; simpl.
  - now exists c.
  - apply IH.
Qed.

Lemma on_image_chunk_session (data : chunk_data) (now : Z) (c d : conn) :
  session c = session d ->
  session (on_image_chunk data now c) = session (on_image_chunk data now d).
Proof.
  intros Hs. unfold on_image_chunk.
  destruct (Buffer_from (chunk data)); [destruct (isLast data)|]; simpl;
    now rewrite Hs.
Qed.

Lemma failed_chunks_aux (ds : list (chunk_data * Z)) (c d : conn) :
  session c = session d ->
  exists c1 c2,
    run c (chunk_inputs ds) = Some c1
    /\ run d (chunk_inputs (List.filter converts ds)) = Some c2
    /\ session c1 = session c2
    /\ inflight c1 = inflight c
    /\ count is_image_upload_error (trace c1)
       = (count is_image_upload_error (trace c)
          + length (List.filter (fun x => negb (converts x)) ds))%nat.
Proof.
  revert c d. induction ds as [|[data t] ds IH]; intros c d Hs.
  - exists c, d. simpl. repeat split; try assumption; lia.
  - destruct (Buffer_from (chunk data)) as [b|m] eqn:Hb.
    + assert (converts (data, t) = true) as Hc
        by (unfold converts; simpl; now rewrite Hb).
      simpl. rewrite Hc. simpl.
      destruct (IH (on_image_chunk data t c) (on_image_chunk data t d)
                  (on_image_chunk_session data t c d Hs))
        as (c1 & c2 & H1 & H2 & H3 & H4 & H5).
      exists c1, c2. rewrite H1, H2, H4, H5. repeat split; try assumption.
      * unfold on_image_chunk. rewrite Hb. now destruct (isLast data).
      * unfold on_image_chunk. rewrite Hb.
        destruct (isLast data); simpl; rewrite ?count_snoc'; simpl; lia.
    + assert (converts (data, t) = false) as Hc
        by (unfold converts; simpl; now rewrite Hb).
      simpl. rewrite Hc. simpl.
      destruct (IH (on_image_chunk data t c) d) as (c1 & c2 & H1 & H2 & H3 & H4 & H5).
      { unfold on_image_chunk. now rewrite Hb. }
      exists c1, c2. rewrite H1, H2, H4, H5. repeat split; try assumption.
      * unfold on_image_chunk. now rewrite Hb.
      * unfold on_image_chunk. rewrite Hb. simpl. rewrite count_snoc'.
        simpl. lia.
Qed.

(** X8: chunks whose payload cannot be converted do not take part in an
    upload.  For any sequence of [image_chunk] events, terminal or not,
    the session ends up exactly as if the failing ones had never been
    sent; each of them is answered by one ["image_upload"] error, and
    the pipeline in flight, if any, is not disturbed. *)
Theorem failed_chunks_are_skipped (c : conn) (ds : list (chunk_data * Z)) :
  exists c1 c2,
    run c (chunk_inputs ds) = Some c1
    /\ run c (chunk_inputs (List.filter converts ds)) = Some c2
    /\ session c1 = session c2
    /\ inflight c1 = inflight c
    /\ count is_image_upload_error (trace c1)
       = (count is_image_upload_error (trace c)
          + length (List.filter (fun x => negb (converts x)) ds))%nat.
Proof. exact (failed_chunks_aux ds c c eq_refl). Qed.

Lemma total_length_concat (l : list bytes) :
  Buffer_length (Buffer_concat l) = total_length l.
Proof.
  unfold Buffer_length, Buffer_concat.
  induction l as [|b l IH]; simpl; [reflexivity|].
  rewrite length_app, Nat2Z.inj_add, IH. reflexivity.
Qed.

(** X9: a terminal chunk flushes everything the assembly buffer holds.
    Whatever the buffer holds when an upload starts (for instance the
    chunks of an earlier upload that never sent its terminal chunk) is
    prepended, in arrival order, to the new chunks, and the size reported
    by [image_received] is the sum of the lengths of all the chunks
    flushed. *)
Theorem stale_chunks_join_next_upload (c : conn) (cs : list (bytes * Z))
    (last : bytes) (now : Z) :
  let flushed := imageChunks (session c) ++ map fst cs ++ [last] in
  exists c',
    run c (map (chunk_event false) cs ++ [chunk_event true (last, now)])
    = Some c'
    /\ image (session c') = Some (Buffer_concat flushed)
    /\ imageChunks (session c') = []
    /\ trace c' = trace c ++ [Emit (image_received (total_length flushed) now)].
Proof.
  intros flushed.
  destruct (chunks_buffered cs c) as (c1 & Hrun & Himg & Hch & Hp & Hin & Htr).
  eexists. rewrite run_app, Hrun. simpl. split; [reflexivity|].
  simpl. rewrite Hch, Htr, total_length_concat, <- app_assoc.
  repeat split; reflexivity.
Qed.

(** X10: an image of zero bytes is still an image.  After an upload
    whose only chunk is empty, a text message is sent to the model with
    a second turn holding the instruction and a data URL with an empty
    payload. *)
Theorem empty_image_is_sent (c : conn) (message : string) (t now : Z) :
  isProcessing (session c) = false ->
  imageChunks (session c) = [] ->
  exists c' request,
    run c [ chunk_event true ([], t); Deliver (text_message message) now ]
    = Some c'
    /\ trace c' = trace c ++ [ Emit (image_received 0 t);
                               Call (generateText request) ]
    /\ AiAgent.messages request
       = [ {| AiAgent.role := "user";
              AiAgent.content := [AiAgent.text_part message] |};
           {| AiAgent.role := "user";
              AiAgent.content :=
                [ AiAgent.text_part "Describe this image in detail";
                  AiAgent.image_part "data:image/png;base64," ] |} ].
Proof.
  intros Hidle Hempty.
  exists (deliver (text_message message) now
            (deliver (image_chunk {| chunk := JBinary []; isLast := true |})
               t c)),
    (AiAgent.build_request (Some []) message).
  split; [reflexivity|]. simpl. unfold on_text_message, on_image_chunk. simpl.
  rewrite Hidle, Hempty. simpl. rewrite <- app_assoc. split; reflexivity.
Qed.

Lemma empty_image_is_sent_witness :
  exists c' request,
    run new_conn
      [ chunk_event true ([], 1); Deliver (text_message "What is this?") 2 ]
    = Some c'
    /\ trace c' = [ Emit (image_received 0 1); Call (generateText request) ]
    /\ length (AiAgent.messages request) = 2%nat.
Proof.
  destruct (empty_image_is_sent new_conn "What is this?" 1 2
              eq_refl eq_refl) as (c' & request & Hrun & Htr & Hm).
  exists c', request. rewrite Hm. repeat split; assumption.
Defined.

Lemma stale_chunks_join_next_upload_witness :
  imageChunks (session stale_conn) = [[xff; xd8]]
  /\ exists c',
       run stale_conn [chunk_event true ([x89; x50], 3)] = Some c'
       /\ image (session c') = Some [xff; xd8; x89; x50]
       /\ trace c' = trace stale_conn ++ [Emit (image_received 4 3)].
Proof.
  split; [reflexivity|].
  destruct (stale_chunks_join_next_upload stale_conn [] [x89; x50] 3)
    as (c' & Hrun & Himg & _ & Htr).
  exists c'. repeat split; assumption.
Defined.

(** X11: handling a request never changes the image state.  Over any
    sequence of inputs that holds no [image_chunk], [clear_image] or
    [disconnect] event (pipeline-triggering events, busy rejections and
    replies of every kind, failures included), the held image and the
    assembly buffer stay as they were, so the image is sent again with
    every later request until it is cleared or replaced. *)
Theorem requests_leave_image_alone (ins : list input) (c c' : conn) :
  forallb (fun i => negb (touches_image i)) ins = true ->
  run c ins = Some c' ->
  image (session c') = image (session c)
  /\ imageChunks (session c') = imageChunks (session c).
Proof.
  revert c. induction ins as [|i ins IH]; intros c Hq Hrun.
  - injection Hrun as <-. split; reflexivity.
  - simpl in Hq. apply andb_prop in Hq as [Hi Hq]. simpl in Hrun.
    destruct (step c i) as [c1|] eqn:Hstep; [|discriminate Hrun].
    destruct (IH c1 Hq Hrun) as [H1 H2]. rewrite H1, H2. clear IH Hrun H1 H2.
    destruct i as [ev now|k r].
    + injection Hstep as <-.
      destruct ev as [v|data|message| |]; try discriminate Hi; simpl.
      * unfold on_audio_full. destruct (isProcessing (session c));
          [|destruct (Buffer_from v)]; split; reflexivity.
      * unfold on_text_message. destruct (isProcessing (session c));
          split; reflexivity.
    + simpl in Hstep.
      destruct (inflight c !! k) as [p|]; [|discriminate Hstep].
      simpl in Hstep.
      destruct (resume p r c) as [[c2 next]|] eqn:Hres; [|discriminate Hstep].
      injection Hstep as <-.
      destruct (resume_frame p r c c2 next Hres) as (_ & H1 & H2 & _).
      simpl. split; assumption.
Qed.

Lemma requests_leave_image_alone_witness :
  image (session idle_conn) = Some [x89; x50]
  /\ match run idle_conn
             [ Deliver (text_message "What is this?") 3;
               Deliver (audio_full (JBinary [x01])) 4;
               Resume 0 (generated (fun _ => Throw "quota exceeded")) ] with
     | Some c' => image (session c') = Some [x89; x50]
     | None => False
     end.
Proof.
  split; [reflexivity|].
  destruct (run idle_conn _) as [c'|] eqn:Hrun.
  - exact (proj1 (requests_leave_image_alone
                    [ Deliver (text_message "What is this?") 3;
                      Deliver (audio_full (JBinary [x01])) 4;
                      Resume 0 (generated (fun _ => Throw "quota exceeded")) ]
                    idle_conn c' eq_refl Hrun)).
  - vm_compute in Hrun. discriminate Hrun.
Defined.

Lemma forallb_snoc (f : action -> bool) (t : list action) (a : action) :
  forallb f (t ++ [a]) = forallb f t && f a.
Proof. rewrite forallb_app. simpl. now rewrite andb_true_r. Qed.

Lemma resume_documented (p : pending) (r : reply) (c c1 : conn)
    (next : option pending) :
  forallb documented (trace c) = true ->
  resume p r c = Some (c1, next) ->
  forallb documented (trace c1) = true.
Proof.
  intros Hd Hres.
  destruct p as [| |id|id|h img message|h aiResponseText];
    destruct r as [[url|m]|[jid|m]|[t|m]| |remote|w now];
    simpl in Hres; try discriminate Hres;
    try (injection Hres as <- <-; simpl; rewrite forallb_snoc, Hd;
         reflexivity).
  - destruct (status t =? "completed")%string;
      [|destruct (status t =? "error")%string];
      injection Hres as <- <-; simpl; rewrite forallb_snoc, Hd; reflexivity.
  - unfold after_AiProcessing in Hres.
    destruct (AiAgent.AiProcessing remote img message); destruct h;
      injection Hres as <- <-; simpl; rewrite forallb_snoc, Hd; reflexivity.
  - unfold after_textToAudio in Hres.
    destruct (Tts.textToAudio w aiResponseText); destruct h;
      injection Hres as <- <-; simpl; rewrite forallb_snoc, Hd; reflexivity.
Qed.

(** X12: the only [error] events a connection ever emits are of type
    ["busy"], ["full_audio"], ["image_upload"] or ["text_processing"],
    and a busy one always carries the message "Still processing previous
    request", whatever events and replies arrive. *)
Theorem only_documented_errors (ins : list input) (c : conn) :
  run new_conn ins = Some c ->
  forallb documented (trace c) = true.
Proof.
  assert (forall c0, forallb documented (trace c0) = true ->
                     run c0 ins = Some c ->
                     forallb documented (trace c) = true) as Hgen.
  { induction ins as [|i ins IH]; intros c0 Hd Hrun.
    - injection Hrun as <-. exact Hd.
    - simpl in Hrun.
      destruct (step c0 i) as [c1|] eqn:Hstep; [|discriminate Hrun].
      apply (IH c1); [|exact Hrun]. clear IH Hrun.
      destruct i as [ev now|k r].
      + injection Hstep as <-.
        destruct ev as [v|data|message| |]; simpl.
        * unfold on_audio_full. destruct (isProcessing (session c0));
            [|destruct (Buffer_from v)]; simpl;
            rewrite ?forallb_snoc, Hd; reflexivity.
        * unfold on_image_chunk.
          destruct (Buffer_from (chunk data)); [destruct (isLast data)|];
            simpl; rewrite ?forallb_snoc, Hd; reflexivity.
        * unfold on_text_message. destruct (isProcessing (session c0));
            simpl; rewrite ?forallb_snoc, Hd; reflexivity.
        * rewrite forallb_snoc, Hd. reflexivity.
        * exact Hd.
      + simpl in Hstep.
        destruct (inflight c0 !! k) as [p|]; [|discriminate Hstep].
        simpl in Hstep.
        destruct (resume p r c0) as [[c2 next]|] eqn:Hres;
          [|discriminate Hstep].
        injection Hstep as <-. simpl.
        exact (resume_documented p r c0 c2 next Hd Hres). }
  apply Hgen. reflexivity.
Qed.

Lemma only_documented_errors_witness :
  forallb documented (trace answered_conn) = true.
Proof. exact (only_documented_errors back_to_back answered_conn eq_refl). Defined.

(** X13: what a text request sends back.  If the inference call fails,
    the handler emits one ["text_processing"] error with that failure's
    message and never calls the synthesis service; if synthesis fails,
    the error carries the synthesis failure's message; otherwise the
    client gets one [ai_response] with the model's text, the
    base64-encoded audio and the time read after synthesis.  In each
    case the busy flag is released and nothing else is emitted. *)
Theorem text_pipeline_outcomes (c : conn) (message : string) (t now : Z)
    (remote : AiAgent.request -> result AiAgent.response) (w : Tts.world) :
  isProcessing (session c) = false ->
  inflight c = [] ->
  let request := AiAgent.build_request (image (session c)) message in
  let ended (c' : conn) (added : list action) :=
    trace c' = trace c ++ Call (generateText request) :: added
    /\ inflight c' = []
    /\ isProcessing (session c') = false in
  match AiAgent.AiProcessing remote (image (session c)) message with
  | Throw m =>
      exists c',
        run c [ Deliver (text_message message) t;
                Resume 0 (generated remote) ] = Some c'
        /\ ended c' [Emit (error "text_processing" m)]
  | Ok aiText =>
      exists c',
        run c [ Deliver (text_message message) t;
                Resume 0 (generated remote);
                Resume 0 (synthesized w now) ] = Some c'
        /\ ended c'
             [ Call (generateContent aiText);
               match Tts.textToAudio w aiText with
               | Ok wave =>
                   Emit (ai_response aiText (base64_encode wave) now)
               | Throw m => Emit (error "text_processing" m)
               end ]
  end.
Proof.
  intros Hidle Hnone request ended. unfold ended, request.
  simpl. unfold on_text_message. rewrite Hidle. simpl.
  rewrite Hnone. simpl. unfold after_AiProcessing.
  destruct (AiAgent.AiProcessing remote (image (session c)) message)
    as [aiText|m]; simpl.
  - rewrite Hnone. simpl. unfold after_textToAudio.
    destruct (Tts.textToAudio w aiText); simpl; eexists;
      (split; [reflexivity|]); simpl; rewrite Hnone, <- !app_assoc;
      repeat split; reflexivity.
  - eexists. split; [reflexivity|]. simpl. rewrite Hnone, <- !app_assoc.
    repeat split; reflexivity.
Qed.

Lemma text_pipeline_outcomes_witness :
  exists c',
    run new_conn [ Deliver (text_message "What is 2+2?") 1;
                   Resume 0 (generated (fun _ => Throw "quota exceeded")) ]
    = Some c'
    /\ trace c'
       = [ Call (generateText (AiAgent.build_request None "What is 2+2?"));
           Emit (error "text_processing" "quota exceeded") ]
    /\ isProcessing (session c') = false.
Proof.
  destruct (text_pipeline_outcomes new_conn "What is 2+2?" 1 9
              (fun _ => Throw "quota exceeded")
              (tts_world None Wav.finish) eq_refl eq_refl)
    as (c' & Hrun & Htr & _ & HP).
  exists c'. repeat split; assumption.
Defined.

Lemma textToAudio_drained (w : Tts.world) (text d : string)
    (r : Tts.response) :
  Tts.generateContent w text = Ok r ->
  Tts.audio_data r = Some d ->
  d <> "" ->
  drained (Tts.ending w) ->
  debug_save_ok w = true ->
  Tts.textToAudio w text = Ok (pcm_header ++ Buffer_from_base64 d).
Proof.
  intros Hr Hd Hne Hdr Hsave. unfold Tts.textToAudio.
  rewrite Hr. simpl. rewrite Hd. destruct d as [|ch d]; [congruence|].
  change default_channels with 1 at 1. change default_rate with 24000 at 1.
  change default_sampleWidth with 2 at 1.
  rewrite (getWaveBuffer_drained _ _ Hdr). simpl.
  now rewrite (debug_save_settles w _ _ Hsave).
Qed.

(** X14: the audio the client receives decodes to playable sound.  When
    the synthesis response holds a payload and the framing stream has
    drained, the [audio] field of the [ai_response] base64-decodes to
    the 44-byte WAV header followed by exactly the decoded payload of
    the synthesis service. *)
Theorem client_recovers_framed_audio (c : conn) (h : handler)
    (text d : string) (w : Tts.world) (r : Tts.response) (now : Z) :
  inflight c = [await_textToAudio h text] ->
  Tts.generateContent w text = Ok r ->
  Tts.audio_data r = Some d ->
  d <> "" ->
  drained (Tts.ending w) ->
  debug_save_ok w = true ->
  exists c' audio,
    step c (Resume 0 (synthesized w now)) = Some c'
    /\ trace c' = trace c ++ [Emit (ai_response text audio now)]
    /\ Buffer_from_base64 audio = pcm_header ++ Buffer_from_base64 d
    /\ strip_header (Buffer_from_base64 audio) = Buffer_from_base64 d
    /\ inflight c' = []
    /\ isProcessing (session c') = false.
Proof.
  intros Hin Hr Hd Hne Hdr Hsave.
  pose proof (textToAudio_drained w text d r Hr Hd Hne Hdr Hsave) as Htts.
  exists (settle 0 None
            (finally
               (emit (ai_response text
                        (base64_encode (pcm_header ++ Buffer_from_base64 d))
                        now) c))),
    (base64_encode (pcm_header ++ Buffer_from_base64 d)).
  split.
  - simpl. rewrite Hin. simpl. unfold after_textToAudio. rewrite Htts.
    reflexivity.
  - rewrite base64_roundtrip. simpl. rewrite Hin.
    repeat split; reflexivity.
Qed.

Lemma client_recovers_framed_audio_witness :
  exists c' audio,
    step voicing_conn
      (Resume 0 (synthesized (tts_world (Some "AAEC") Wav.finish) 9))
    = Some c'
    /\ trace c' = trace voicing_conn ++ [Emit (ai_response "4." audio 9)]
    /\ strip_header (Buffer_from_base64 audio) = [x00; x01; x02].
Proof.
  destruct (client_recovers_framed_audio voicing_conn text_processing "4."
              "AAEC" (tts_world (Some "AAEC") Wav.finish)
              (tts_response (Some "AAEC")) 9
              eq_refl eq_refl eq_refl ltac:(discriminate) I eq_refl)
    as (c' & audio & Hstep & Htr & _ & Hstrip & _).
  exists c', audio. repeat split; assumption.
Defined.

(** X15: what an audio request sends to the services, in order: the
    audio to the upload, the returned reference to the job creation, the
    job id to every poll (3000 ms apart), and, once the job is
    completed, the transcript's text (the empty message when there is
    none) with the held image to the model, whose answer goes to the
    synthesis service; the client then gets one [ai_response]. *)
Theorem audio_pipeline_trace (c : conn) (audio : bytes) (t now : Z)
    (url id : string) (ts : list transcript) (final : transcript)
    (remote : AiAgent.request -> result AiAgent.response) (w : Tts.world)
    (aiText : string) (wave : bytes) :
  isProcessing (session c) = false ->
  inflight c = [] ->
  forallb in_progress ts = true ->
  status final = "completed" ->
  let transcript := match text final with Some s => s | None => "" end in
  AiAgent.AiProcessing remote (image (session c)) transcript = Ok aiText ->
  Tts.textToAudio w aiText = Ok wave ->
  exists c',
    run c
      ([ Deliver (audio_full (JBinary audio)) t;
         Resume 0 (uploaded (Ok url)); Resume 0 (created (Ok id)) ]
       ++ (poll_rounds ts ++ [Resume 0 (got (Ok final))])
       ++ [ Resume 0 (generated remote); Resume 0 (synthesized w now) ])
    = Some c'
    /\ trace c'
       = trace c
         ++ [ Call (files_upload audio); Call (transcripts_create url);
              Call (transcripts_get id) ]
         ++ poll_trace id ts
         ++ [ Call (generateText
                      (AiAgent.build_request (image (session c)) transcript));
              Call (generateContent aiText);
              Emit (ai_response aiText (base64_encode wave) now) ]
    /\ inflight c' = []
    /\ isProcessing (session c') = false.
Proof.
  intros Hidle Hnone Hts Hst transcript Hai Htts.
  rewrite run_app.
  assert (exists c1,
             run c [ Deliver (audio_full (JBinary audio)) t;
                     Resume 0 (uploaded (Ok url));
                     Resume 0 (created (Ok id)) ] = Some c1
             /\ inflight c1 = [await_get id]
             /\ image (session c1) = image (session c)
             /\ trace c1
                = trace c
                  ++ [ Call (files_upload audio);
                       Call (transcripts_create url);
                       Call (transcripts_get id) ])
    as (c1 & -> & Hin1 & Himg1 & Htr1).
  { simpl. unfold on_audio_full. rewrite Hidle. simpl.
    repeat (rewrite Hnone; simpl).
    eexists. split; [reflexivity|]. simpl. rewrite Hnone, <- !app_assoc.
    repeat split; reflexivity. }
  simpl mbind. rewrite run_app.
  destruct (poll_completed c1 id ts final Hin1 Hts Hst)
    as (c2 & -> & Htr2 & Hin2 & Hs2).
  unfold text_or_empty in *. fold transcript in Htr2, Hin2.
  simpl. rewrite Hin2. simpl. rewrite Himg1, Hai. simpl.
  rewrite Hin2. simpl. rewrite Htts. simpl.
  eexists. split; [reflexivity|]. simpl.
  rewrite Hin2, Htr2, Htr1, Himg1, <- !app_assoc. simpl.
  repeat split; reflexivity.
Qed.

Lemma audio_pipeline_trace_witness :
  exists c',
    run new_conn
      ([ Deliver (audio_full (JBinary [x01; x02])) 1;
         Resume 0 (uploaded (Ok "https://cdn/upload/1"));
         Resume 0 (created (Ok "job-1")) ]
       ++ (poll_rounds [queued] ++ [Resume 0 (got (Ok (completed "hi")))])
       ++ [ Resume 0 (generated (fun _ => Ok (one_text_step "Hello.")));
            Resume 0 (synthesized (tts_world (Some "AAEC") Wav.finish) 9) ])
    = Some c'
    /\ inflight c' = []
    /\ isProcessing (session c') = false.
Proof.
  destruct (audio_pipeline_trace new_conn [x01; x02] 1 9
              "https://cdn/upload/1" "job-1" [queued] (completed "hi")
              (fun _ => Ok (one_text_step "Hello."))
              (tts_world (Some "AAEC") Wav.finish)
              "Hello." (pcm_header ++ [x00; x01; x02])
              eq_refl eq_refl eq_refl eq_refl eq_refl eq_refl)
    as (c' & Hrun & _ & Hin & HP).
  exists c'. repeat split; assumption.
Defined.

End Coverage.

(** * Beyond the claims: the adapters *)

Section Adapters.
Import Cover.
Local Open Scope list_scope.

Lemma writeUInt16LE_ok (v : Z) :
  0 <= v <= 65535 ->
  Wav.writeUInt16LE v = Ok [byte_of_Z v; byte_of_Z (v / 256)].
Proof.
  intros Hv. unfold Wav.writeUInt16LE.
  destruct (0 <=? v) eqn:H1; destruct (v <=? 65535) eqn:H2; simpl;
    try reflexivity; lia.
Qed.

Lemma writeUInt32LE_ok (v : Z) :
  0 <= v <= 4294967295 ->
  Wav.writeUInt32LE v
  = Ok [byte_of_Z v; byte_of_Z (v / 256); byte_of_Z (v / 65536);
        byte_of_Z (v / 16777216)].
Proof.
  intros Hv. unfold Wav.writeUInt32LE.
  destruct (0 <=? v) eqn:H1; destruct (v <=? 4294967295) eqn:H2; simpl;
    try reflexivity; lia.
Qed.

Lemma little_endian_16 (v : Z) :
  0 <= v <= 65535 ->
  Z_of_byte (byte_of_Z v) + 256 * Z_of_byte (byte_of_Z (v / 256)) = v.
Proof.
  intros Hv. rewrite !Z_of_byte_of_Z. Z.div_mod_to_equations. lia.
Qed.

Lemma little_endian_32 (v : Z) :
  0 <= v <= 4294967295 ->
  Z_of_byte (byte_of_Z v) + 256 * Z_of_byte (byte_of_Z (v / 256))
  + 65536 * Z_of_byte (byte_of_Z (v / 65536))
  + 16777216 * Z_of_byte (byte_of_Z (v / 16777216)) = v.
Proof.
  intros Hv. rewrite !Z_of_byte_of_Z. Z.div_mod_to_equations. lia.
Qed.

(** The layout of a 44-byte PCM header, field by field. *)
Lemma parse_header_layout (s0 s1 s2 s3 f0 f1 c0 c1 r0 r1 r2 r3
                           y0 y1 y2 y3 a0 a1 b0 b1 l0 l1 l2 l3 : byte)
    (pcm : bytes) :
  let le16 x y := Z_of_byte x + 256 * Z_of_byte y in
  let le32 x y z u :=
    Z_of_byte x + 256 * Z_of_byte y + 65536 * Z_of_byte z
    + 16777216 * Z_of_byte u in
  parse_header
    (Wav.RIFF ++ [s0; s1; s2; s3] ++ Wav.WAVE ++ Wav.fmt
     ++ [x10; x00; x00; x00] ++ [f0; f1] ++ [c0; c1] ++ [r0; r1; r2; r3]
     ++ [y0; y1; y2; y3] ++ [a0; a1] ++ [b0; b1] ++ Wav.data
     ++ [l0; l1; l2; l3] ++ pcm)
  = Some {| hdr_riffSize := le32 s0 s1 s2 s3;
            hdr_audioFormat := le16 f0 f1;
            hdr_channels := le16 c0 c1;
            hdr_sampleRate := le32 r0 r1 r2 r3;
            hdr_byteRate := le32 y0 y1 y2 y3;
            hdr_blockAlign := le16 a0 a1;
            hdr_bitsPerSample := le16 b0 b1;
            hdr_dataLength := le32 l0 l1 l2 l3 |}.
Proof. reflexivity. Qed.

Lemma getWaveBuffer_header (e : Wav.ending) (pcm : bytes)
    (channels rate sampleWidth : Z) :
  representable channels rate sampleWidth ->
  drained e ->
  exists s0 s1 s2 s3 l0 l1 l2 l3,
    getWaveBuffer e pcm channels rate sampleWidth
    = Ok (Wav.RIFF ++ [s0; s1; s2; s3] ++ Wav.WAVE ++ Wav.fmt
          ++ [x10; x00; x00; x00] ++ [x01; x00]
          ++ [byte_of_Z channels; byte_of_Z (channels / 256)]
          ++ [byte_of_Z rate; byte_of_Z (rate / 256);
              byte_of_Z (rate / 65536); byte_of_Z (rate / 16777216)]
          ++ (let y := rate * channels * sampleWidth in
              [byte_of_Z y; byte_of_Z (y / 256); byte_of_Z (y / 65536);
               byte_of_Z (y / 16777216)])
          ++ (let a := channels * sampleWidth in
              [byte_of_Z a; byte_of_Z (a / 256)])
          ++ (let b := sampleWidth * 8 in [byte_of_Z b; byte_of_Z (b / 256)])
          ++ Wav.data ++ [l0; l1; l2; l3] ++ pcm).
Proof.
  intros (Hc & Hr & Hb & Hy & Ha) Hd.
  destruct e as [|m]; [clear Hd|contradiction].
  assert (rate * channels * (sampleWidth * 8) / 8
          = rate * channels * sampleWidth) as Hy8.
  { replace (rate * channels * (sampleWidth * 8))
      with (rate * channels * sampleWidth * 8) by ring.
    apply Z.div_mul. lia. }
  assert (channels * (sampleWidth * 8) / 8 = channels * sampleWidth) as Ha8.
  { replace (channels * (sampleWidth * 8))
      with (channels * sampleWidth * 8) by ring.
    apply Z.div_mul. lia. }
  unfold getWaveBuffer, Wav.new_Writer, Wav._writeHeader. simpl Wav.channels.
  simpl Wav.sampleRate. simpl Wav.bitDepth. rewrite Hy8, Ha8.
  rewrite (writeUInt32LE_ok (Wav.MAX_WAV + Wav.headerLength - 8))
    by (vm_compute; split; discriminate).
  rewrite (writeUInt32LE_ok 16) by lia.
  rewrite (writeUInt16LE_ok 1) by lia.
  rewrite (writeUInt16LE_ok channels) by lia.
  rewrite (writeUInt32LE_ok rate) by lia.
  rewrite (writeUInt32LE_ok (rate * channels * sampleWidth)) by nia.
  rewrite (writeUInt16LE_ok (channels * sampleWidth)) by nia.
  rewrite (writeUInt16LE_ok (sampleWidth * 8)) by lia.
  rewrite (writeUInt32LE_ok Wav.MAX_WAV) by (vm_compute; split; discriminate).
  cbn [bind]. rewrite pipe_all.
  do 8 eexists. f_equal. unfold Buffer_concat, getBuffer. cbn [chunks].
  cbn [Wav.pushed Wav.write List.concat app new_BufferWritable chunks].
  rewrite app_nil_r, <- !app_assoc. reflexivity.
Qed.

(** X16: framing keeps any format that fits.  For every channel count,
    sample rate and sample width whose header fields fit their 16- and
    32-bit slots, the drained result is a 44-byte header that declares
    exactly this format (with block align channels x width and byte rate
    rate x channels x width), followed by the unchanged payload. *)
Theorem framer_any_format (e : Wav.ending) (pcm : bytes)
    (channels rate sampleWidth : Z) :
  representable channels rate sampleWidth ->
  drained e ->
  exists (b : bytes) (h : wav_header),
    getWaveBuffer e pcm channels rate sampleWidth = Ok b
    /\ parse_header b = Some h
    /\ hdr_audioFormat h = 1
    /\ hdr_channels h = channels
    /\ hdr_sampleRate h = rate
    /\ hdr_bitsPerSample h = sampleWidth * 8
    /\ hdr_blockAlign h = channels * sampleWidth
    /\ hdr_byteRate h = rate * channels * sampleWidth
    /\ strip_header b = pcm
    /\ Buffer_length b = 44 + Buffer_length pcm.
Proof.
  intros Hrep Hd.
  destruct (getWaveBuffer_header e pcm channels rate sampleWidth Hrep Hd)
    as (s0 & s1 & s2 & s3 & l0 & l1 & l2 & l3 & Hw).
  destruct Hrep as (Hc & Hr & Hb & Hy & Ha).
  eexists. eexists. split; [exact Hw|].
  split; [apply parse_header_layout|]. cbn [hdr_audioFormat hdr_channels
    hdr_sampleRate hdr_bitsPerSample hdr_blockAlign hdr_byteRate].
  split; [reflexivity|].
  split; [apply little_endian_16; lia|].
  split; [apply little_endian_32; lia|].
  split; [apply little_endian_16; lia|].
  split; [apply little_endian_16; nia|].
  split; [apply little_endian_32; nia|].
  split; [reflexivity|].
  unfold Buffer_length. simpl length. lia.
Qed.

Lemma framer_any_format_witness :
  exists (b : bytes) (h : wav_header),
    getWaveBuffer Wav.finish [x01; x02; x03; x04] 2 44100 2 = Ok b
    /\ parse_header b = Some h
    /\ hdr_channels h = 2
    /\ hdr_sampleRate h = 44100
    /\ hdr_bitsPerSample h = 16
    /\ strip_header b = [x01; x02; x03; x04].
Proof.
  destruct (framer_any_format Wav.finish [x01; x02; x03; x04] 2 44100 2)
    as (b & h & Hw & Hp & _ & Hc & Hr & Hb & _ & _ & Hs & _).
  - unfold representable. lia.
  - simpl. lia.
  - exists b, h. repeat split; assumption.
Defined.

Lemma join_cons (sep x : string) (l : list string) :
  l <> [] -> join sep (x :: l) = (x ++ sep ++ join sep l)%string.
Proof. destruct l; [congruence | reflexivity]. Qed.

Lemma join_app (sep : string) (l1 l2 : list string) :
  l1 <> [] -> l2 <> [] ->
  join sep (l1 ++ l2) = (join sep l1 ++ sep ++ join sep l2)%string.
Proof.
  intros H1 H2. induction l1 as [|x l1 IH]; [congruence|].
  destruct l1 as [|y l1].
  - simpl app. now rewrite join_cons.
  - change ((x :: y :: l1) ++ l2) with (x :: ((y :: l1) ++ l2)).
    rewrite join_cons by discriminate. rewrite IH by discriminate.
    rewrite (join_cons sep x (y :: l1)) by discriminate.
    now rewrite !append_assoc.
Qed.

(** X17: step boundaries do not show in the answer.  When every step of
    the model's response has at least one segment, the result is the
    newline-joined list of all segments in emission order (a non-text
    segment counting as the empty string), however the segments are
    grouped into steps. *)
Theorem resultText_ignores_step_boundaries (r : AiAgent.response) :
  Forall (fun st => AiAgent.step_content st <> []) (AiAgent.steps r) ->
  AiAgent.resultText r
  = join newline
      (map AiAgent.output_text
         (List.concat (map AiAgent.step_content (AiAgent.steps r)))).
Proof.
  unfold AiAgent.resultText. intros Hne.
  induction Hne as [|st sts Hst Hsts IH]; [reflexivity|].
  destruct sts as [|st' sts].
  - simpl. now rewrite app_nil_r.
  - change (map AiAgent.step_content (st :: st' :: sts))
      with (AiAgent.step_content st
            :: map AiAgent.step_content (st' :: sts)).
    cbn [List.concat]. rewrite map_app, join_app.
    + rewrite <- IH. reflexivity.
    + destruct (AiAgent.step_content st); [congruence | discriminate].
    + inversion Hsts as [|? ? Hst' _]; subst. simpl.
      destruct (AiAgent.step_content st'); [congruence | discriminate].
Qed.

Lemma resultText_ignores_step_boundaries_witness :
  AiAgent.resultText
    {| AiAgent.steps :=
         [ {| AiAgent.step_content :=
                [AiAgent.text_output "a"; AiAgent.other_output "tool-call"] |};
           {| AiAgent.step_content := [AiAgent.text_output "b"] |} ] |}
  = join newline ["a"; ""; "b"].
Proof.
  apply (resultText_ignores_step_boundaries
           {| AiAgent.steps :=
                [ {| AiAgent.step_content :=
                       [ AiAgent.text_output "a";
                         AiAgent.other_output "tool-call" ] |};
                  {| AiAgent.step_content := [AiAgent.text_output "b"] |} ] |}).
  repeat constructor; discriminate.
Defined.

(** X18: only the first part of the first candidate is looked at.  When
    that part carries no inline data, [textToAudio] reports that no
    audio was returned, whatever the other parts and the other
    candidates of the response hold. *)
Theorem only_first_part_is_read (w : Tts.world) (text : string)
    (p : Tts.part) (ps : list Tts.part) (cands : list Tts.candidate) :
  Tts.generateContent w text
  = Ok {| Tts.candidates :=
            Some ({| Tts.content := Some {| Tts.parts := Some (p :: ps) |} |}
                  :: cands) |} ->
  Tts.inlineData p = None ->
  Tts.textToAudio w text = Throw Tts.no_audio.
Proof.
  intros Hr Hp. unfold Tts.textToAudio. rewrite Hr. simpl.
  unfold Tts.audio_data. simpl. now rewrite Hp.
Qed.

Lemma only_first_part_is_read_witness :
  Tts.textToAudio audio_in_second_part "4." = Throw Tts.no_audio.
Proof.
  exact (only_first_part_is_read audio_in_second_part "4." _ _ _
           eq_refl eq_refl).
Defined.



End Adapters.
